(** * FRBSF Economic Letters: the cache store and the fetch orchestrator

    A shallow embedding of [database.py] (the [DatabaseManager] over the three
    SQLAlchemy tables) and of the fetch path of [main.py]
    ([scrape_economic_letters], [get_letters]), with the properties of the
    cache-aside design proved about it.

    Conventions of the model:
    - a Python [str] is the list of its code points ([pystr]);
    - a [datetime] is an integer number of microseconds ([Z]); every
      function that reads [datetime.utcnow()] takes that reading as an
      argument [now];
    - a table is the list of its rows in rowid order; a query without
      [order_by] scans it in that order;
    - the session is created with [autoflush=False]: pending objects reach
      the tables only in [commit], which either applies every write or
      raises and leaves the tables as they were;
    - the driver sends a text it binds as UTF-8 and raises on a lone
      surrogate. The texts of [store_letters], [get_cached_insight] and
      [store_insight] come from scraped pages and from the body of a
      request, and their binding is modelled ([bind_all]); the key, the
      category and the URL the other methods bind come from literals of
      the program, from the query string or from the path of a request,
      which hold no lone surrogate;
    - the flush reads the clock for each row it inserts: the first row of
      a flush that starts at [now] is stamped [now], the next one a tick
      later. *)

From Stdlib Require Import ZArith List String Ascii Lia Bool DecimalString.
From Stdlib Require Import Sorting.Sorted Sorting.Permutation.
From stdpp Require Import base option list gmap.
Import ListNotations.
Local Open Scope Z_scope.

(** ** Python strings *)

Module Str.

Definition pystr := list Z.

(** An ASCII literal as a Python string. *)
Definition lit (s : string) : pystr :=
  List.map (fun c => Z.of_N (N_of_ascii c)) (list_ascii_of_string s).
#[global] Arguments lit : simpl never.

(** [str.isspace] on one character (CPython's [_PyUnicode_IsWhitespace]). *)
Definition isspace (c : Z) : bool :=
  ((9 <=? c) && (c <=? 13)) || ((28 <=? c) && (c <=? 32))
  || (c =? 133) || (c =? 160) || (c =? 5760)
  || ((8192 <=? c) && (c <=? 8202))
  || (c =? 8232) || (c =? 8233) || (c =? 8239) || (c =? 8287)
  || (c =? 12288).

Fixpoint lstrip (s : pystr) : pystr :=
  match s with
  | c :: s' => if isspace c then lstrip s' else s
  | [] => []
  end.

Definition rstrip (s : pystr) : pystr := rev (lstrip (rev s)).

(** [s.strip()] *)
Definition strip (s : pystr) : pystr := rstrip (lstrip s).

(** [str.lower] restricted to what ASCII needs: the instance of the
    case mapping used to run the model on ASCII questions. *)
Definition ascii_lower (s : pystr) : pystr :=
  List.map (fun c => if (65 <=? c) && (c <=? 90) then c + 32 else c) s.

(** UTF-8 of one code point; [None] is [UnicodeEncodeError] (a lone
    surrogate) or a number that is no code point at all. *)
Definition utf8_char (c : Z) : option (list Z) :=
  if c <? 0 then None
  else if c <? 128 then Some [c]
  else if c <? 2048 then
    Some [Z.lor 192 (Z.shiftr c 6); Z.lor 128 (Z.land c 63)]
  else if (55296 <=? c) && (c <=? 57343) then None
  else if c <? 65536 then
    Some [Z.lor 224 (Z.shiftr c 12);
          Z.lor 128 (Z.land (Z.shiftr c 6) 63);
          Z.lor 128 (Z.land c 63)]
  else if c <? 1114112 then
    Some [Z.lor 240 (Z.shiftr c 18);
          Z.lor 128 (Z.land (Z.shiftr c 12) 63);
          Z.lor 128 (Z.land (Z.shiftr c 6) 63);
          Z.lor 128 (Z.land c 63)]
  else None.

(** [s.encode()] *)
Fixpoint encode (s : pystr) : option (list Z) :=
  match s with
  | [] => Some []
  | c :: s' =>
      match utf8_char c, encode s' with
      | Some b, Some bs => Some (b ++ bs)
      | _, _ => None
      end
  end.

(** A [str] the sqlite3 driver can bind as the parameter of a statement: it
    sends the text as UTF-8. *)
Definition bindable (s : pystr) : bool :=
  match encode s with
  | Some _ => true
  | None => false
  end.

(** The order of two texts in an index (BINARY collation: the order of
    their code points). *)
Fixpoint text_leb (a b : pystr) : bool :=
  match a, b with
  | [], _ => true
  | _ :: _, [] => false
  | x :: a', y :: b' => (x <? y) || ((x =? y) && text_leb a' b')
  end.

(** [s[:n]] for a slice bound [n] of either sign. *)
Definition slice_to {A} (l : list A) (n : Z) : list A :=
  if n <? 0 then firstn (Z.to_nat (Z.of_nat (length l) + n)) l
  else firstn (Z.to_nat n) l.

(** [s.startswith(p)] *)
Fixpoint startswith (s p : pystr) : bool :=
  match p, s with
  | [], _ => true
  | a :: p', b :: s' => (a =? b) && startswith s' p'
  | _ :: _, [] => false
  end.

End Str.
Import Str.

#[global] Arguments bindable : simpl never.

(** ** hashlib.md5 *)

Module MD5.

Definition mask32 : Z := 0xFFFFFFFF.
Definition add32 (a b : Z) : Z := Z.land (a + b) mask32.
Definition not32 (a : Z) : Z := Z.lxor a mask32.
Definition rotl32 (x : Z) (s : Z) : Z :=
  Z.lor (Z.land (Z.shiftl x s) mask32) (Z.shiftr x (32 - s)).

Definition K : list Z :=
  [ 0xd76aa478; 0xe8c7b756; 0x242070db; 0xc1bdceee;
    0xf57c0faf; 0x4787c62a; 0xa8304613; 0xfd469501;
    0x698098d8; 0x8b44f7af; 0xffff5bb1; 0x895cd7be;
    0x6b901122; 0xfd987193; 0xa679438e; 0x49b40821;
    0xf61e2562; 0xc040b340; 0x265e5a51; 0xe9b6c7aa;
    0xd62f105d; 0x02441453; 0xd8a1e681; 0xe7d3fbc8;
    0x21e1cde6; 0xc33707d6; 0xf4d50d87; 0x455a14ed;
    0xa9e3e905; 0xfcefa3f8; 0x676f02d9; 0x8d2a4c8a;
    0xfffa3942; 0x8771f681; 0x6d9d6122; 0xfde5380c;
    0xa4beea44; 0x4bdecfa9; 0xf6bb4b60; 0xbebfbc70;
    0x289b7ec6; 0xeaa127fa; 0xd4ef3085; 0x04881d05;
    0xd9d4d039; 0xe6db99e5; 0x1fa27cf8; 0xc4ac5665;
    0xf4292244; 0x432aff97; 0xab9423a7; 0xfc93a039;
    0x655b59c3; 0x8f0ccc92; 0xffeff47d; 0x85845dd1;
    0x6fa87e4f; 0xfe2ce6e0; 0xa3014314; 0x4e0811a1;
    0xf7537e82; 0xbd3af235; 0x2ad7d2bb; 0xeb86d391 ].

Definition S : list Z :=
  [ 7; 12; 17; 22; 7; 12; 17; 22; 7; 12; 17; 22; 7; 12; 17; 22;
    5; 9; 14; 20; 5; 9; 14; 20; 5; 9; 14; 20; 5; 9; 14; 20;
    4; 11; 16; 23; 4; 11; 16; 23; 4; 11; 16; 23; 4; 11; 16; 23;
    6; 10; 15; 21; 6; 10; 15; 21; 6; 10; 15; 21; 6; 10; 15; 21 ].

Record state := St { sa : Z; sb : Z; sc : Z; sd : Z }.

Definition init : state :=
  St 0x67452301 0xefcdab89 0x98badcfe 0x10325476.

(** One of the 64 steps on the 16 words [m] of a block. *)
Definition step (m : list Z) (st : state) (i : nat) : state :=
  let '(St a b c d) := st in
  let iz := Z.of_nat i in
  let '(f, g) :=
    if iz <? 16 then (Z.lor (Z.land b c) (Z.land (not32 b) d), iz)
    else if iz <? 32 then
      (Z.lor (Z.land d b) (Z.land (not32 d) c), (5 * iz + 1) mod 16)
    else if iz <? 48 then (Z.lxor b (Z.lxor c d), (3 * iz + 5) mod 16)
    else (Z.lxor c (Z.lor b (not32 d)), (7 * iz) mod 16) in
  let f' := add32 (add32 (add32 f a) (nth i K 0)) (nth (Z.to_nat g) m 0) in
  St d (add32 b (rotl32 f' (nth i S 0))) b c.

(** Little-endian word of four bytes. *)
Definition word_of (bs : list Z) : Z :=
  match bs with
  | [b0; b1; b2; b3] =>
      Z.lor b0 (Z.lor (Z.shiftl b1 8) (Z.lor (Z.shiftl b2 16) (Z.shiftl b3 24)))
  | _ => 0
  end.

Fixpoint words (n : nat) (bs : list Z) : list Z :=
  match n with
  | O => []
  | Datatypes.S n' => word_of (firstn 4 bs) :: words n' (skipn 4 bs)
  end.

Definition block (st : state) (bs : list Z) : state :=
  let m := words 16 bs in
  let st' := fold_left (step m) (seq 0 64) st in
  St (add32 (sa st) (sa st')) (add32 (sb st) (sb st'))
     (add32 (sc st) (sc st')) (add32 (sd st) (sd st')).

Fixpoint blocks (n : nat) (st : state) (bs : list Z) : state :=
  match n with
  | O => st
  | Datatypes.S n' => blocks n' (block st (firstn 64 bs)) (skipn 64 bs)
  end.

Definition le_bytes (n : nat) (x : Z) : list Z :=
  List.map (fun i => Z.land (Z.shiftr x (8 * Z.of_nat i)) 255) (seq 0 n).

(** The message, 0x80, zeros up to 56 modulo 64, the bit length on 8 bytes. *)
Definition pad (msg : list Z) : list Z :=
  let len := Z.of_nat (length msg) in
  let zeros := Z.to_nat ((55 - len) mod 64) in
  msg ++ [128] ++ repeat 0 zeros ++ le_bytes 8 ((8 * len) mod 2 ^ 64).

(** [hashlib.md5(msg).digest()] *)
Definition digest (msg : list Z) : list Z :=
  let p := pad msg in
  let st := blocks (length p / 64)%nat init p in
  le_bytes 4 (sa st) ++ le_bytes 4 (sb st)
  ++ le_bytes 4 (sc st) ++ le_bytes 4 (sd st).

Definition hex_digit (n : Z) : Z := if n <? 10 then 48 + n else 87 + n.

Definition hex_byte (b : Z) : pystr :=
  [hex_digit (Z.shiftr b 4); hex_digit (Z.land b 15)].

(** [hashlib.md5(msg).hexdigest()] *)
Definition hexdigest (msg : list Z) : pystr :=
  concat (List.map hex_byte (digest msg)).

End MD5.

(** ** Exceptions *)

Inductive exn :=
| KeyError (key : pystr)
| IntegrityError
| UnicodeEncodeError.

Inductive result (A : Type) :=
| Ok (a : A)
| Raise (e : exn).
Arguments Ok {A} a.
Arguments Raise {A} e.

#[global] Instance result_ret : MRet result := fun _ a => Ok a.
#[global] Instance result_bind : MBind result := fun _ _ f m =>
  match m with
  | Ok a => f a
  | Raise e => Raise e
  end.

(** Binding the text parameters of a statement: a text with a lone
    surrogate has no UTF-8 and the driver raises. *)
Fixpoint bind_all (params : list pystr) : result unit :=
  match params with
  | [] => Ok tt
  | p :: params' =>
      if bindable p then bind_all params' else Raise UnicodeEncodeError
  end.

(** [for x in l: s = f(s, x)], stopping at the first exception. *)
Fixpoint for_each {A St : Type} (f : St -> A -> result St) (l : list A) (s : St)
  : result St :=
  match l with
  | [] => Ok s
  | x :: l' => s' ← f s x; for_each f l' s'
  end.

(** ** The tables (database.py, lines 25-72) *)

Module EconomicLetter.
Record t := mk {
  id : Z;
  url : pystr;
  title : pystr;
  date : pystr;
  content : pystr;
  summary : pystr;
  scraped_at : Z;
  updated_at : Z
}.
End EconomicLetter.

Module Insight.
Record t := mk {
  id : Z;
  letter_url : pystr;
  question : pystr;
  question_hash : pystr;
  insight : pystr;
  created_at : Z
}.
End Insight.

Module CacheMetadata.
Record t := mk {
  id : Z;
  cache_key : pystr;
  cache_type : pystr;
  last_updated : Z;
  expires_at : Z;
  is_valid : bool;
  extra_data : option pystr
}.
End CacheMetadata.

Record DB := mkDB {
  economic_letters : list EconomicLetter.t;
  insights : list Insight.t;
  cache_metadata : list CacheMetadata.t
}.

Definition empty_db : DB := mkDB [] [] [].

(** [CACHE_EXPIRY_HOURS = 24], as the [timedelta] in microseconds. *)
Definition CACHE_EXPIRY_HOURS : Z := 24.
Definition timedelta_hours (h : Z) : Z := h * 3600 * 1000000.

(** ** Queries *)

Definition pystr_eqb (a b : pystr) : bool := bool_decide (a = b).

(** [query.first()] with a filter. *)
Definition first {A} (p : A -> bool) (rows : list A) : option A := List.find p rows.

(** Assignment to the attributes of the object [first] returned: the row
    it stands for is the first one that passes the filter. *)
Fixpoint update_first {A} (p : A -> bool) (f : A -> A) (rows : list A) : list A :=
  match rows with
  | [] => []
  | r :: rows' => if p r then f r :: rows' else r :: update_first p f rows'
  end.

(** [order_by(key.desc())]: rows of equal key keep their table order
    (SQLite leaves the order of ties open). *)
Fixpoint insert_desc {A} (key : A -> Z) (x : A) (l : list A) : list A :=
  match l with
  | [] => [x]
  | y :: l' => if key y <=? key x then x :: l else y :: insert_desc key x l'
  end.

Definition order_by_desc {A} (key : A -> Z) (rows : list A) : list A :=
  fold_right (insert_desc key) [] rows.

(** The rows as a scan of an index on the text column [key] delivers
    them: in the order of [key], rows of equal key in table order. *)
Fixpoint insert_by_text {A} (key : A -> pystr) (x : A) (l : list A) : list A :=
  match l with
  | [] => [x]
  | y :: l' =>
      if text_leb (key x) (key y) then x :: l else y :: insert_by_text key x l'
  end.

Definition index_scan {A} (key : A -> pystr) (rows : list A) : list A :=
  fold_right (insert_by_text key) [] rows.

(** [OFFSET n]: a negative offset is read as 0 by SQLite. *)
Definition sql_offset {A} (n : Z) (rows : list A) : list A :=
  skipn (Z.to_nat (Z.max 0 n)) rows.

(** [LIMIT n]: a negative limit is no limit in SQLite. *)
Definition sql_limit {A} (n : Z) (rows : list A) : list A :=
  if n <? 0 then rows else firstn (Z.to_nat n) rows.

(** The rowid SQLite gives to the next row of an INTEGER PRIMARY KEY table. *)
Definition next_id {A} (id : A -> Z) (rows : list A) : Z :=
  1 + fold_right Z.max 0 (List.map id rows).

(** ** The session

    What a [Session] of [SessionLocal] (autoflush off) holds between
    [get_db] and [commit]: the persistent rows with the attribute
    assignments made so far, the objects passed to [db.add], and the texts
    assigned to persistent rows, which the UPDATE statements of the flush
    will bind. The columns the filters of this program test ([url],
    [cache_key], [letter_url], [question_hash]) are never assigned, so a
    filter gives the same row on [loaded] as on the stored tables. *)

Record NewLetter := mkNewLetter {
  nl_url : pystr; nl_title : pystr; nl_date : pystr;
  nl_content : pystr; nl_summary : pystr
}.

Record NewInsight := mkNewInsight {
  ni_letter_url : pystr; ni_question : pystr;
  ni_question_hash : pystr; ni_insight : pystr
}.

Record NewCache := mkNewCache {
  nc_cache_key : pystr; nc_cache_type : pystr;
  nc_expires_at : Z; nc_extra_data : option pystr
}.

Record Session := mkSession {
  loaded : DB;
  new_letters : list NewLetter;
  new_insights : list NewInsight;
  new_caches : list NewCache;
  assigned : list pystr
}.

(** [db = self.get_db()] *)
Definition get_db (db : DB) : Session := mkSession db [] [] [] [].

(** INSERT of the pending letters, one row after the other: the five
    texts are bound, and [url] is UNIQUE. [scraped_at] and [updated_at]
    take their default, [datetime.utcnow] called for each row: the clock
    is read at [now] for the first row and one tick later for each row
    after it. *)
Fixpoint insert_letters (now : Z) (rows : list EconomicLetter.t)
    (new : list NewLetter) : result (list EconomicLetter.t) :=
  match new with
  | [] => Ok rows
  | n :: new' =>
      _ ← bind_all [nl_url n; nl_title n; nl_date n; nl_content n; nl_summary n];
      if existsb (fun r => pystr_eqb (EconomicLetter.url r) (nl_url n)) rows
      then Raise IntegrityError
      else insert_letters (now + 1)
             (rows ++ [EconomicLetter.mk (next_id EconomicLetter.id rows)
                         (nl_url n) (nl_title n) (nl_date n) (nl_content n)
                         (nl_summary n) now now])
             new'
  end.

(** INSERT of the pending insights: the four texts are bound; the table
    has no UNIQUE column. [created_at] takes its default, read as for the
    letters. *)
Fixpoint insert_insights (now : Z) (rows : list Insight.t)
    (new : list NewInsight) : result (list Insight.t) :=
  match new with
  | [] => Ok rows
  | n :: new' =>
      _ ← bind_all [ni_letter_url n; ni_question n; ni_question_hash n;
                    ni_insight n];
      insert_insights (now + 1)
        (rows ++ [Insight.mk (next_id Insight.id rows) (ni_letter_url n)
                    (ni_question n) (ni_question_hash n) (ni_insight n) now])
        new'
  end.

(** INSERT of the pending cache entries; [cache_key] is UNIQUE,
    [last_updated] and [is_valid] take their default. The texts of an
    entry are literals of the program and a count in decimal. *)
Fixpoint insert_caches (now : Z) (rows : list CacheMetadata.t)
    (new : list NewCache) : result (list CacheMetadata.t) :=
  match new with
  | [] => Ok rows
  | n :: new' =>
      if existsb (fun r => pystr_eqb (CacheMetadata.cache_key r) (nc_cache_key n)) rows
      then Raise IntegrityError
      else insert_caches now
             (rows ++ [CacheMetadata.mk (next_id CacheMetadata.id rows)
                         (nc_cache_key n) (nc_cache_type n) now
                         (nc_expires_at n) true (nc_extra_data n)])
             new'
  end.

(** [db.commit()]: the flush (the UPDATE statements, then the INSERT
    statements) and the commit of its transaction. *)
Definition commit (s : Session) (now : Z) : result DB :=
  _ ← bind_all (assigned s);
  letters ← insert_letters now (economic_letters (loaded s)) (new_letters s);
  answers ← insert_insights now (insights (loaded s)) (new_insights s);
  caches ← insert_caches now (cache_metadata (loaded s)) (new_caches s);
  Ok (mkDB letters answers caches).

(** [try: ... db.commit(); return True
     except Exception: db.rollback(); return False] on the tables [db]. *)
Definition try_commit (db : DB) (body : result DB) : bool * DB :=
  match body with
  | Ok db' => (true, db')
  | Raise _ => (false, db)
  end.

(** ** Dictionaries *)

Abbreviation Dict := (gmap pystr pystr).

(** [d[key]] *)
Definition getitem (d : Dict) (key : pystr) : result pystr :=
  match d !! key with
  | Some v => Ok v
  | None => Raise (KeyError key)
  end.

(** The five-key dictionary of a letter, as [get_letters_from_cache] and
    [scrape_economic_letters] both build it. *)
Definition letter_dict (title url date summary content : pystr) : Dict :=
  <[lit "title" := title]>
    (<[lit "url" := url]>
       (<[lit "date" := date]>
          (<[lit "summary" := summary]>
             (<[lit "content" := content]> ∅)))).

(** [json.dumps({"count": n})] *)
Definition json_count (n : nat) : pystr :=
  [123; 34] ++ lit "count" ++ [34; 58; 32]
  ++ lit (NilZero.string_of_uint (Nat.to_uint n)) ++ [125].

(** ** DatabaseManager (database.py, lines 75-339) *)

Section DatabaseManager.

(** [str.lower], whose Unicode case tables are CPython's. *)
Variable str_lower : pystr -> pystr.

(** *** Economic letters *)

(** The filter of the three read paths:
    [expires_at > datetime.utcnow(), is_valid == True]. *)
Definition fresh (now : Z) (e : CacheMetadata.t) : bool :=
  (CacheMetadata.expires_at e >? now) && eqb (CacheMetadata.is_valid e) true.

Definition get_letters_from_cache (db : DB) (now : Z) (limit offset : Z)
  : list Dict * bool :=
  let cache_key := lit "letters_list" in
  let cache_entry :=
    first (fun e => pystr_eqb (CacheMetadata.cache_key e) cache_key && fresh now e)
      (cache_metadata db) in
  match cache_entry with
  | None => ([], false)
  | Some _ =>
      let letters_query :=
        order_by_desc EconomicLetter.scraped_at (economic_letters db) in
      let total_count := Z.of_nat (length letters_query) in
      let letters := sql_limit limit (sql_offset offset letters_query) in
      let has_more := offset + limit <? total_count in
      let letters_data :=
        List.map (fun letter =>
                    letter_dict (EconomicLetter.title letter)
                      (EconomicLetter.url letter) (EconomicLetter.date letter)
                      (EconomicLetter.summary letter)
                      (EconomicLetter.content letter))
          letters in
      (letters_data, has_more)
  end.

(** The body of the [for] loop of [store_letters]; its query binds the
    URL. *)
Definition store_letter (now : Z) (s : Session) (letter_data : Dict)
  : result Session :=
  url ← getitem letter_data (lit "url");
  _ ← bind_all [url];
  let same_url r := pystr_eqb (EconomicLetter.url r) url in
  match first same_url (economic_letters (loaded s)) with
  | Some _ =>
      title ← getitem letter_data (lit "title");
      date ← getitem letter_data (lit "date");
      content ← getitem letter_data (lit "content");
      summary ← getitem letter_data (lit "summary");
      let assign r :=
        EconomicLetter.mk (EconomicLetter.id r) (EconomicLetter.url r)
          title date content summary (EconomicLetter.scraped_at r) now in
      Ok (mkSession
            (mkDB (update_first same_url assign (economic_letters (loaded s)))
               (insights (loaded s)) (cache_metadata (loaded s)))
            (new_letters s) (new_insights s) (new_caches s)
            (assigned s ++ [title; date; content; summary]))
  | None =>
      title ← getitem letter_data (lit "title");
      date ← getitem letter_data (lit "date");
      content ← getitem letter_data (lit "content");
      summary ← getitem letter_data (lit "summary");
      Ok (mkSession (loaded s)
            (new_letters s ++ [mkNewLetter url title date content summary])
            (new_insights s) (new_caches s) (assigned s))
  end.

(** The "Update cache metadata" part of [store_letters]. *)
Definition touch_letters_list (now : Z) (count : nat) (s : Session) : Session :=
  let cache_key := lit "letters_list" in
  let same_key e := pystr_eqb (CacheMetadata.cache_key e) cache_key in
  let expires_at := now + timedelta_hours CACHE_EXPIRY_HOURS in
  match first same_key (cache_metadata (loaded s)) with
  | Some _ =>
      let assign e :=
        CacheMetadata.mk (CacheMetadata.id e) (CacheMetadata.cache_key e)
          (CacheMetadata.cache_type e) now expires_at true
          (CacheMetadata.extra_data e) in
      mkSession
        (mkDB (economic_letters (loaded s)) (insights (loaded s))
           (update_first same_key assign (cache_metadata (loaded s))))
        (new_letters s) (new_insights s) (new_caches s) (assigned s)
  | None =>
      mkSession (loaded s) (new_letters s) (new_insights s)
        (new_caches s
         ++ [mkNewCache cache_key (lit "letters_list") expires_at
               (Some (json_count count))])
        (assigned s)
  end.

Definition store_letters (db : DB) (now : Z) (letters_data : list Dict)
  : bool * DB :=
  try_commit db
    (s ← for_each (store_letter now) letters_data (get_db db);
     commit (touch_letters_list now (length letters_data) s) now).

Definition is_cache_valid (db : DB) (now : Z) (cache_key : pystr) : bool :=
  let cache_entry :=
    first (fun e => pystr_eqb (CacheMetadata.cache_key e) cache_key && fresh now e)
      (cache_metadata db) in
  match cache_entry with
  | Some _ => true
  | None => false
  end.

(** *** Insights *)

Definition _hash_question (question : pystr) : result pystr :=
  match encode (strip (str_lower question)) with
  | Some bytes => Ok (MD5.hexdigest bytes)
  | None => Raise UnicodeEncodeError
  end.

Definition same_question (letter_url question_hash : pystr) (i : Insight.t)
  : bool :=
  pystr_eqb (Insight.letter_url i) letter_url
  && pystr_eqb (Insight.question_hash i) question_hash.

(** No [except] here: an exception of [_hash_question], or of the query
    when it binds [letter_url], leaves the method. *)
Definition get_cached_insight (db : DB) (letter_url question : pystr)
  : result (option pystr) :=
  question_hash ← _hash_question question;
  _ ← bind_all [letter_url];
  match first (same_question letter_url question_hash) (insights db) with
  | Some insight => Ok (Some (Insight.insight insight))
  | None => Ok None
  end.

Definition store_insight (db : DB) (now : Z)
    (letter_url question insight_text : pystr) : bool * DB :=
  try_commit db
    (question_hash ← _hash_question question;
     _ ← bind_all [letter_url];
     let s := get_db db in
     let existing_insight :=
       first (same_question letter_url question_hash) (insights (loaded s)) in
     let s' :=
       match existing_insight with
       | Some _ =>
           let assign i :=
             Insight.mk (Insight.id i) (Insight.letter_url i)
               (Insight.question i) (Insight.question_hash i)
               insight_text now in
           mkSession
             (mkDB (economic_letters (loaded s))
                (update_first (same_question letter_url question_hash) assign
                   (insights (loaded s)))
                (cache_metadata (loaded s)))
             (new_letters s) (new_insights s) (new_caches s)
             (assigned s ++ [insight_text])
       | None =>
           mkSession (loaded s) (new_letters s)
             (new_insights s
              ++ [mkNewInsight letter_url question question_hash insight_text])
             (new_caches s) (assigned s)
       end in
     commit s' now).

(** *** Question history *)

(** One entry of the history; [hi_created_at] stands for the
    [isoformat()] of the timestamp. *)
Record HistoryItem := mkHistoryItem {
  hi_id : Z; hi_question : pystr; hi_insight : pystr; hi_created_at : Z
}.

(** The rows of one letter are read through [idx_letter_question], in the
    order of [question_hash]; the sort on [created_at] keeps that order
    among equal timestamps. *)
Definition get_question_history (db : DB) (letter_url : pystr)
  : list HistoryItem :=
  let insights :=
    order_by_desc Insight.created_at
      (index_scan Insight.question_hash
         (List.filter (fun i => pystr_eqb (Insight.letter_url i) letter_url)
            (insights db))) in
  List.map (fun insight =>
              mkHistoryItem (Insight.id insight) (Insight.question insight)
                (Insight.insight insight) (Insight.created_at insight))
    insights.

(** [db.delete(insight)] removes the row of that primary key. *)
Definition delete_question (db : DB) (question_id : Z) : bool * DB :=
  match first (fun i => Insight.id i =? question_id) (insights db) with
  | Some insight =>
      (true,
       mkDB (economic_letters db)
         (List.filter (fun i => negb (Insight.id i =? Insight.id insight))
            (insights db))
         (cache_metadata db))
  | None => (false, db)
  end.

(** *** Cache management *)

(** [if cache_type:] on an [Optional[str]]. *)
Definition truthy (s : option pystr) : bool :=
  match s with
  | Some (_ :: _) => true
  | _ => false
  end.

Definition clear_cache (db : DB) (cache_type : option pystr) : DB :=
  let selected e :=
    if truthy cache_type
    then bool_decide (Some (CacheMetadata.cache_type e) = cache_type)
    else true in
  let invalidate e :=
    CacheMetadata.mk (CacheMetadata.id e) (CacheMetadata.cache_key e)
      (CacheMetadata.cache_type e) (CacheMetadata.last_updated e)
      (CacheMetadata.expires_at e) false (CacheMetadata.extra_data e) in
  mkDB (economic_letters db) (insights db)
    (List.map (fun e => if selected e then invalidate e else e)
       (cache_metadata db)).

Record CacheStats := mkCacheStats {
  total_letters : nat; total_insights : nat;
  valid_caches : nat; database_size : pystr
}.

Definition get_cache_stats (db : DB) (now : Z) : CacheStats :=
  mkCacheStats (length (economic_letters db)) (length (insights db))
    (length
       (List.filter
          (fun e => eqb (CacheMetadata.is_valid e) true
                    && (CacheMetadata.expires_at e >? now))
          (cache_metadata db)))
    (lit "N/A").

End DatabaseManager.

(** ** The fetch orchestrator (main.py, lines 52-115 and 222-239) *)

(** An [<a>] element of the listing page: [link.get('href')] and
    [link.get_text(strip=True)]. *)
Record Link := mkLink { href : pystr; text : pystr }.

Section Main.

(** [\d] of the [re] module on a [str]: the Unicode decimal digits. *)
Variable unicode_digit : Z -> bool.

(** [scrape_letter_content(url)]: the text the site serves for [url]; it
    catches its own exceptions. *)
Variable scrape_letter_content : pystr -> pystr.

(** [re.search(r'/(\d{4})/', s)], its group 1. *)
Fixpoint search_year (s : pystr) : option pystr :=
  match s with
  | [] => None
  | c :: s' =>
      match s' with
      | d1 :: d2 :: d3 :: d4 :: c' :: _ =>
          if (c =? 47) && unicode_digit d1 && unicode_digit d2
             && unicode_digit d3 && unicode_digit d4 && (c' =? 47)
          then Some [d1; d2; d3; d4]
          else search_year s'
      | _ => search_year s'
      end
  end.

Definition nonempty {A} (l : list A) : bool :=
  match l with
  | [] => false
  | _ :: _ => true
  end.

(** The body of the loop over [article_links[:max_letters]]. *)
Definition scrape_link (letters : list Dict) (link : Link) : list Dict :=
  let base_url := lit "https://www.frbsf.org" in
  let letter_url :=
    if startswith (href link) (lit "/") then base_url ++ href link
    else href link in
  let title := text link in
  if nonempty title && nonempty letter_url then
    let date :=
      match search_year letter_url with
      | Some year => year
      | None => lit "Unknown"
      end in
    let content := scrape_letter_content letter_url in
    let summary :=
      if Z.of_nat (length content) >? 500
      then slice_to content 500 ++ lit "..."
      else content in
    letters ++ [letter_dict title letter_url date summary content]
  else letters.

(** [page] is what [requests.get] and BeautifulSoup give for the listing
    page: [None] when one of them raises, otherwise the links
    [soup.find_all] returns. [now] is the clock at the first cache read,
    [now'] the clock after the request. *)
Definition scrape_economic_letters (db : DB) (now now' : Z) (limit : Z)
    (page : option (list Link)) : DB * list Dict :=
  let '(cached_letters, _) := get_letters_from_cache db now limit 0 in
  if nonempty cached_letters then (db, cached_letters)
  else
    match page with
    | Some article_links =>
        let max_letters := Z.max limit 20 in
        let letters :=
          fold_left scrape_link (slice_to article_links max_letters) [] in
        let db' :=
          if nonempty letters then snd (store_letters db now' letters)
          else db in
        (db', slice_to letters limit)
    | None =>
        let '(fallback_letters, _) := get_letters_from_cache db now' limit 0 in
        if nonempty fallback_letters then (db, fallback_letters)
        else (db, [])
    end.



End Main.

(** ** The answer orchestrator and the admin endpoints
    (main.py, lines 154-214 and 243-303) *)

(** What a route handler gives back: its return value, or the
    [HTTPException] it raises. *)
Inductive response (A : Type) :=
| Success (body : A)
| HTTPException (status_code : Z) (detail : pystr).
Arguments Success {A} body.
Arguments HTTPException {A} status_code detail.

Definition status {A} (r : response A) : Z :=
  match r with
  | Success _ => 200
  | HTTPException status_code _ => status_code
  end.

(** The f-string of [get_llm_insight]. *)
Definition prompt (content question : pystr) : pystr :=
  [10]
  ++ lit "        Based on the following economic letter content, please answer this question: "
  ++ question ++ [10]
  ++ [10]
  ++ lit "        Economic Letter Content:" ++ [10]
  ++ lit "        " ++ content ++ [10]
  ++ [10]
  ++ lit "        Please provide a clear, concise, and insightful analysis based on the content provided."
  ++ [10]
  ++ lit "        Format your response using markdown for better readability:" ++ [10]
  ++ lit "        - Use **bold** for key points and important terms" ++ [10]
  ++ lit "        - Use bullet points or numbered lists for structured information" ++ [10]
  ++ lit "        - Use headers (##, ###) to organize different sections of your analysis"
  ++ [10]
  ++ lit "        - Use *italics* for emphasis where appropriate" ++ [10]
  ++ lit "        - Use > blockquotes for important quotes from the letter" ++ [10]
  ++ lit "        ".

Section Endpoints.

Variable str_lower : pystr -> pystr.
Variable unicode_digit : Z -> bool.
Variable scrape_letter_content : pystr -> pystr.

(** [bedrock.invoke_model] on the prompt and the reading of its body: the
    text of the answer, or [str(e)] of the exception one of them raised. *)
Variable invoke_model : pystr -> pystr + pystr.

(** [str(e)] of an exception of the store and of an [HTTPException]. *)
Variable str_exn : exn -> pystr.
Variable str_http : Z -> pystr -> pystr.

(** The cache read comes before the [try]: its exception leaves the
    function. *)
Definition get_llm_insight (db : DB) (now : Z)
    (content question letter_url : pystr) : result (DB * pystr) :=
  cached_insight ←
    (if nonempty letter_url
     then get_cached_insight str_lower db letter_url question
     else Ok None);
  match cached_insight with
  | Some (c :: cached) => Ok (db, c :: cached)
  | _ =>
      match invoke_model (prompt content question) with
      | inr insight_text =>
          let db' :=
            if nonempty letter_url && nonempty insight_text
            then snd (store_insight str_lower db now letter_url question
                        insight_text)
            else db in
          Ok (db', insight_text)
      | inl e => Ok (db, lit "Error generating insight: " ++ e)
      end
  end.

(** [POST /api/insights] *)
Definition get_insights (db : DB) (now : Z)
    (letter_content question letter_url : pystr) : DB * response pystr :=
  match get_llm_insight db now letter_content question letter_url with
  | Ok (db', insight) => (db', Success insight)
  | Raise e => (db, HTTPException 500 (lit "Error generating insight: " ++ str_exn e))
  end.

(** [POST /api/cache/clear] *)
Definition clear_cache_endpoint (db : DB) (cache_type : option pystr)
  : DB * response pystr :=
  (clear_cache db cache_type,
   Success (lit "Cache cleared successfully"
            ++ match cache_type with
               | Some (c :: t) => lit " for type: " ++ c :: t
               | _ => []
               end)).

Record RefreshResponse := mkRefreshResponse {
  rr_message : pystr; rr_count : nat
}.

(** [POST /api/letters/refresh] *)
Definition refresh_letters (db : DB) (now now' : Z)
    (page : option (list Link)) : DB * response RefreshResponse :=
  let db1 := clear_cache db (Some (lit "letters_list")) in
  let '(db2, letters) :=
    scrape_economic_letters unicode_digit scrape_letter_content db1 now now' 20
      page in
  (db2,
   Success
     (mkRefreshResponse
        (lit "Refreshed "
         ++ lit (NilZero.string_of_uint (Nat.to_uint (length letters)))
         ++ lit " letters")
        (length letters))).

(** [DELETE /api/questions/{question_id}]: the 404 is raised inside the
    [try], and [HTTPException] is an [Exception]. *)
Definition delete_question_endpoint (db : DB) (question_id : Z)
  : DB * response pystr :=
  let '(success, db') := delete_question db question_id in
  if success then (db', Success (lit "Question deleted successfully"))
  else
    (db',
     HTTPException 500
       (lit "Error deleting question: " ++ str_http 404 (lit "Question not found"))).

End Endpoints.

(** ** Vocabulary of the specification *)

(** Newest first. *)
Definition desc {A} (key : A -> Z) (a b : A) : Prop := key b <= key a.

(** The spec's predicate of the freshness policy: the validity flag is
    true and the current time is before the expiry timestamp. *)
Definition usable (now : Z) (e : CacheMetadata.t) : Prop :=
  CacheMetadata.is_valid e = true /\ now < CacheMetadata.expires_at e.

#[global] Instance usable_dec now e : Decision (usable now e).
Proof. unfold usable. apply _. Defined.

(** Some entry of the key is usable. *)
Definition usable_entry (db : DB) (now : Z) (key : pystr) : Prop :=
  exists e, In e (cache_metadata db)
            /\ CacheMetadata.cache_key e = key /\ usable now e.

(** The five values [store_letters] reads from a dictionary, when it has
    them all. *)
Definition letter_fields (d : Dict) : option NewLetter :=
  match d !! lit "url", d !! lit "title", d !! lit "date",
        d !! lit "content", d !! lit "summary" with
  | Some u, Some t, Some dt, Some c, Some s => Some (mkNewLetter u t dt c s)
  | _, _, _, _, _ => None
  end.

Fixpoint batch_fields (ds : list Dict) : option (list NewLetter) :=
  match ds with
  | [] => Some []
  | d :: ds' =>
      match letter_fields d, batch_fields ds' with
      | Some n, Some ns => Some (n :: ns)
      | _, _ => None
      end
  end.

(** The document a row stores. *)
Definition letter_data (r : EconomicLetter.t) : NewLetter :=
  mkNewLetter (EconomicLetter.url r) (EconomicLetter.title r)
    (EconomicLetter.date r) (EconomicLetter.content r)
    (EconomicLetter.summary r).

(** Some row of the table has this source identifier. *)
Definition known_url (rows : list EconomicLetter.t) (u : pystr) : bool :=
  existsb (fun r => pystr_eqb (EconomicLetter.url r) u) rows.

(** The UNIQUE constraint on [economic_letters.url]. *)
Definition urls_unique (db : DB) : Prop :=
  List.NoDup (List.map EconomicLetter.url (economic_letters db)).

(** The items of a batch whose source identifier is not stored yet. *)
Definition fresh_urls (db : DB) (ns : list NewLetter) : list pystr :=
  List.map nl_url
    (List.filter (fun n => negb (known_url (economic_letters db) (nl_url n))) ns).

(** The texts an INSERT of the document binds, and the ones an UPDATE of
    its row binds. *)
Definition letter_texts (n : NewLetter) : list pystr :=
  [nl_url n; nl_title n; nl_date n; nl_content n; nl_summary n].

Definition update_texts (n : NewLetter) : list pystr :=
  [nl_title n; nl_date n; nl_content n; nl_summary n].

(** Every text of the document has a UTF-8 encoding. *)
Definition storable (n : NewLetter) : bool := forallb bindable (letter_texts n).

(** A batch [store_letters] writes without an exception: every dictionary
    has the five keys, every text has a UTF-8 encoding and no new source
    identifier comes twice. *)
Definition writable (db : DB) (ds : list Dict) : Prop :=
  exists ns, batch_fields ds = Some ns
             /\ forallb storable ns = true
             /\ List.NoDup (fresh_urls db ns).

(** Rows inserted by one flush that starts at [now]: each row is stamped
    by its own reading of the clock, one tick after the row before. *)
Fixpoint stamped (now : Z) (rows : list EconomicLetter.t) : Prop :=
  match rows with
  | [] => True
  | r :: rows' =>
      EconomicLetter.scraped_at r = now
      /\ EconomicLetter.updated_at r = now
      /\ stamped (now + 1) rows'
  end.

(** The (document identifier, fingerprint) pair of an answer. *)
Definition answer_key (i : Insight.t) : pystr * pystr :=
  (Insight.letter_url i, Insight.question_hash i).

(** At most one answer for each pair. *)
Definition answers_unique (db : DB) : Prop :=
  List.NoDup (List.map answer_key (insights db)).

(** Every entry under the key "letters_list" carries the category
    "letters_list", as [store_letters] creates it. *)
Definition letters_list_tagged (db : DB) : Prop :=
  forall e, In e (cache_metadata db) ->
            CacheMetadata.cache_key e = lit "letters_list" ->
            CacheMetadata.cache_type e = lit "letters_list".

(** The assignments [store_letters] makes to an existing letter. *)
Definition assign_letter (now : Z) (n : NewLetter) (r : EconomicLetter.t)
  : EconomicLetter.t :=
  EconomicLetter.mk (EconomicLetter.id r) (EconomicLetter.url r)
    (nl_title n) (nl_date n) (nl_content n) (nl_summary n)
    (EconomicLetter.scraped_at r) now.

Definition same_url (u : pystr) (r : EconomicLetter.t) : bool :=
  pystr_eqb (EconomicLetter.url r) u.

Definition letters_written (now : Z) (s : Session) (ns : list NewLetter)
    (s' : Session) : Prop :=
  insights (loaded s') = insights (loaded s)
  /\ cache_metadata (loaded s') = cache_metadata (loaded s)
  /\ new_insights s' = new_insights s
  /\ new_caches s' = new_caches s
  /\ assigned s'
     = assigned s
       ++ concat
            (List.map update_texts
               (List.filter
                  (fun n => known_url (economic_letters (loaded s)) (nl_url n)) ns))
  /\ List.map EconomicLetter.url (economic_letters (loaded s'))
     = List.map EconomicLetter.url (economic_letters (loaded s))
  /\ new_letters s'
     = new_letters s
       ++ List.filter
            (fun n => negb (known_url (economic_letters (loaded s)) (nl_url n))) ns
  /\ (forall r, In r (economic_letters (loaded s)) ->
                ~ In (EconomicLetter.url r) (List.map nl_url ns) ->
                In r (economic_letters (loaded s')))
  /\ (List.NoDup (List.map nl_url ns) ->
      forall n, In n ns ->
                known_url (economic_letters (loaded s)) (nl_url n) = true ->
                exists r, In r (economic_letters (loaded s'))
                          /\ letter_data r = n
                          /\ EconomicLetter.updated_at r = now).

Definition same_key (key : pystr) (e : CacheMetadata.t) : bool :=
  pystr_eqb (CacheMetadata.cache_key e) key.

(** The assignments [store_letters] makes to the existing cache entry. *)
Definition refresh_entry (now : Z) (e : CacheMetadata.t) : CacheMetadata.t :=
  CacheMetadata.mk (CacheMetadata.id e) (CacheMetadata.cache_key e)
    (CacheMetadata.cache_type e) now
    (now + timedelta_hours CACHE_EXPIRY_HOURS) true (CacheMetadata.extra_data e).

(** The cache table after a successful [store_letters] of [count] items. *)
Definition refreshed (now : Z) (count : nat) (rows : list CacheMetadata.t)
  : list CacheMetadata.t :=
  match first (same_key (lit "letters_list")) rows with
  | Some _ => update_first (same_key (lit "letters_list")) (refresh_entry now) rows
  | None =>
      rows ++ [CacheMetadata.mk (next_id CacheMetadata.id rows)
                 (lit "letters_list") (lit "letters_list") now
                 (now + timedelta_hours CACHE_EXPIRY_HOURS) true
                 (Some (json_count count))]
  end.

(** The assignments [store_insight] makes to an existing answer. *)
Definition assign_insight (now : Z) (insight_text : pystr) (i : Insight.t)
  : Insight.t :=
  Insight.mk (Insight.id i) (Insight.letter_url i) (Insight.question i)
    (Insight.question_hash i) insight_text now.

(** The answers after a successful [store_insight]. *)
Definition upserted (now : Z) (letter_url question question_hash insight_text : pystr)
    (rows : list Insight.t) : list Insight.t :=
  match first (same_question letter_url question_hash) rows with
  | Some _ =>
      update_first (same_question letter_url question_hash)
        (assign_insight now insight_text) rows
  | None =>
      rows ++ [Insight.mk (next_id Insight.id rows) letter_url question
                 question_hash insight_text now]
  end.

(** The assignment of the bulk UPDATE of [clear_cache]. *)
Definition invalidated (e : CacheMetadata.t) : CacheMetadata.t :=
  CacheMetadata.mk (CacheMetadata.id e) (CacheMetadata.cache_key e)
    (CacheMetadata.cache_type e) (CacheMetadata.last_updated e)
    (CacheMetadata.expires_at e) false (CacheMetadata.extra_data e).

(** [invalidate] in the spec's words: every entry, or only the entries of
    the category when one is given. *)
Definition invalidate_spec (category : option pystr) (e : CacheMetadata.t)
  : CacheMetadata.t :=
  match category with
  | None => invalidated e
  | Some c => if bool_decide (CacheMetadata.cache_type e = c) then invalidated e else e
  end.

(** [invalidate] as the code selects the entries: an empty category
    string counts as no category. *)
Definition invalidate_nonempty (category : option pystr) (e : CacheMetadata.t)
  : CacheMetadata.t :=
  match category with
  | Some (c0 :: c) =>
      if bool_decide (CacheMetadata.cache_type e = c0 :: c) then invalidated e else e
  | _ => invalidated e
  end.

(** The states the program reaches from the empty database through the
    operations of [DatabaseManager] that write. *)
Inductive reachable (lower : pystr -> pystr) : DB -> Prop :=
| reach_init : reachable lower empty_db
| reach_store_letters db now ds :
    reachable lower db -> reachable lower (snd (store_letters db now ds))
| reach_store_insight db now url q a :
    reachable lower db -> reachable lower (snd (store_insight lower db now url q a))
| reach_delete_question db question_id :
    reachable lower db -> reachable lower (snd (delete_question db question_id))
| reach_clear_cache db category :
    reachable lower db -> reachable lower (clear_cache db category).

(** A number UTF-8 has no encoding for: a surrogate, or no code point. *)
Definition unencodable (c : Z) : Prop :=
  c < 0 \/ (55296 <= c <= 57343) \/ 1114112 <= c.

(** A lower-case hexadecimal digit. *)
Definition hex_char (c : Z) : Prop := (48 <= c <= 57) \/ (97 <= c <= 102).

(** The UNIQUE constraint on [cache_metadata.cache_key]. *)
Definition cache_keys_unique (db : DB) : Prop :=
  List.NoDup (List.map CacheMetadata.cache_key (cache_metadata db)).

(** The primary key of [insights]. *)
Definition insight_ids_unique (db : DB) : Prop :=
  List.NoDup (List.map Insight.id (insights db)).

(** The dictionary [get_letters_from_cache] makes of a row. *)
Definition to_dict (letter : EconomicLetter.t) : Dict :=
  letter_dict (EconomicLetter.title letter) (EconomicLetter.url letter)
    (EconomicLetter.date letter) (EconomicLetter.summary letter)
    (EconomicLetter.content letter).

(** The letters newest first, as the listing query orders them. *)
Definition newest_first (db : DB) : list EconomicLetter.t :=
  order_by_desc EconomicLetter.scraped_at (economic_letters db).

(** The address of the letter a link points to: a path is put under the
    site. *)
Definition absolute_url (link : Link) : pystr :=
  if startswith (href link) (lit "/")
  then lit "https://www.frbsf.org" ++ href link
  else href link.

(** The links an item is made of: the text and the address are not empty. *)
Definition listed (link : Link) : bool :=
  nonempty (text link) && nonempty (absolute_url link).

(** The item of a link: its text as the title, its address, the year of
    the address ("Unknown" when it has none), the body the site serves at
    the address and, as the summary, the first 500 characters of the body,
    marked when the body is longer. *)
Definition link_item (digit : Z -> bool) (content : pystr -> pystr)
    (link : Link) : Dict :=
  let u := absolute_url link in
  let body := content u in
  letter_dict (text link) u
    (match search_year digit u with
     | Some year => year
     | None => lit "Unknown"
     end)
    (if (500 <? length body)%nat then firstn 500 body ++ lit "..." else body)
    body.

(** What [scrape_economic_letters] makes of a link: the link has a text
    and an address, and the item carries the text, the address, the year
    of the address, the body served there and the summary cut from it. *)
Definition item_of (digit : Z -> bool) (content : pystr -> pystr)
    (link : Link) (d : Dict) : Prop :=
  exists s,
    d = letter_dict (text link) (absolute_url link)
          (match search_year digit (absolute_url link) with
           | Some year => year
           | None => lit "Unknown"
           end)
          s (content (absolute_url link))
    /\ text link <> []
    /\ absolute_url link <> []
    /\ (length s <= 503)%nat
    /\ ((length (content (absolute_url link)) <= 500)%nat ->
        s = content (absolute_url link))
    /\ ((500 < length (content (absolute_url link)))%nat ->
        s = firstn 500 (content (absolute_url link)) ++ lit "...").

(** ** Running the model *)

Module Examples.

Definition d_a1 : Dict :=
  letter_dict (lit "T") (lit "a") (lit "2024") (lit "S") (lit "C").
Definition d_a2 : Dict :=
  letter_dict (lit "T2") (lit "a") (lit "2024") (lit "S") (lit "C").

(** One letter stored at time 0: its "letters_list" entry expires 24 hours
    later. *)
Definition db_one_letter : DB := snd (store_letters empty_db 0 [d_a1]).

(** Two answers about the letter "a": "What?" written at 10, "Why?" at 20. *)
Definition db_two_answers : DB :=
  mkDB []
    [Insight.mk 1 (lit "a") (lit "What?")
       (lit "8717cfca734e8987971f63b20eeb8024") (lit "old") 10;
     Insight.mk 2 (lit "a") (lit "Why?")
       (lit "fd1562614f1983c875db9c78c89e31f6") (lit "because") 20]
    [].

(** A listing page with two letters, a site that serves one body for
    every letter, and the ASCII digits for [\d]. *)
Definition ascii_digit (c : Z) : bool := (48 <=? c) && (c <=? 57).
Definition site (url : pystr) : pystr := lit "Body".
Definition listing : list Link :=
  [mkLink (lit "/research-and-insights/publications/economic-letter/2024/05/first/")
     (lit "First");
   mkLink (lit "/research-and-insights/publications/economic-letter/2023/11/second/")
     (lit "Second")].

End Examples.

Example md5_empty :
  MD5.hexdigest [] = lit "d41d8cd98f00b204e9800998ecf8427e".
Proof. vm_compute. reflexivity. Qed.

Example md5_abc :
  option_map MD5.hexdigest (encode (lit "abc"))
  = Some (lit "900150983cd24fb0d6963f7d28e17f72").
Proof. vm_compute. reflexivity. Qed.

Example md5_two_blocks :
  option_map MD5.hexdigest
    (encode (lit "12345678901234567890123456789012345678901234567890123456789012345678901234567890"))
  = Some (lit "57edf4a22be3c955ac49da2e2107b67a").
Proof. vm_compute. reflexivity. Qed.

Example md5_utf8 :
  option_map MD5.hexdigest
    (encode (lit "caf" ++ [233; 32; 8364; 32; 128512]))
  = Some (lit "bfcfeef833ec27a69eab2421b89689da").
Proof. vm_compute. reflexivity. Qed.

Example store_twice_page :
  let db1 := snd (store_letters empty_db 1000 [Examples.d_a1]) in
  let db2 := snd (store_letters db1 2000 [Examples.d_a2]) in
  get_letters_from_cache db2 3000 10 0 = ([Examples.d_a2], false).
Proof. vm_compute. reflexivity. Qed.

Example store_duplicate_new_url :
  store_letters empty_db 1000 [Examples.d_a1; Examples.d_a2] = (false, empty_db).
Proof. vm_compute. reflexivity. Qed.

(** The second dictionary has no "summary": the update of the stored
    letter that the first one made in the session is rolled back with it. *)
Example store_missing_key_rolls_back :
  store_letters Examples.db_one_letter 5
    [Examples.d_a2; delete (lit "summary") Examples.d_a2]
  = (false, Examples.db_one_letter).
Proof. vm_compute. reflexivity. Qed.

Example hash_what :
  _hash_question ascii_lower (lit "  What? ")
  = Ok (lit "8717cfca734e8987971f63b20eeb8024").
Proof. vm_compute. reflexivity. Qed.

(** * Properties *)

(** ** Queries on a table *)

Section Tables.
Context {A : Type}.
Implicit Types (p : A -> bool) (f : A -> A) (rows : list A).

Lemma first_Some p rows x : first p rows = Some x -> In x rows /\ p x = true.
Proof. apply find_some. Qed.

Lemma first_None p rows : first p rows = None -> forall x, In x rows -> p x = false.
Proof. apply find_none. Qed.

Lemma first_found p rows x :
  In x rows -> p x = true -> exists y, first p rows = Some y.
Proof.
  intros Hin Hp. destruct (first p rows) as [y|] eqn:E; [eauto|].
  rewrite (first_None _ _ E x Hin) in Hp. discriminate.
Qed.

Lemma first_ext p q rows :
  (forall x, In x rows -> p x = q x) -> first p rows = first q rows.
Proof.
  induction rows as [|r rows IH]; intros H; [reflexivity|].
  cbn. rewrite <- (H r (or_introl eq_refl)).
  destruct (p r); [reflexivity|]. apply IH. intros x Hx. apply H. now right.
Qed.

Lemma update_first_none p f rows :
  first p rows = None -> update_first p f rows = rows.
Proof.
  induction rows as [|r rows IH]; [reflexivity|]. cbn.
  destruct (p r); [discriminate|]. intros E. now rewrite IH.
Qed.

Lemma update_first_map {B} (g : A -> B) p f rows :
  (forall r, g (f r) = g r) ->
  List.map g (update_first p f rows) = List.map g rows.
Proof.
  intros Hg. induction rows as [|r rows IH]; [reflexivity|]. cbn.
  destruct (p r); cbn; [now rewrite Hg | now rewrite IH].
Qed.

Lemma update_first_length p f rows :
  length (update_first p f rows) = length rows.
Proof.
  induction rows as [|r rows IH]; [reflexivity|]. cbn.
  destruct (p r); cbn; congruence.
Qed.

(** A filter that the assignment does not change still finds the
    assigned object. *)
Lemma first_update_first p f rows :
  (forall r, p (f r) = p r) ->
  first p (update_first p f rows) = option_map f (first p rows).
Proof.
  intros Hp. induction rows as [|r rows IH]; [reflexivity|]. cbn.
  destruct (p r) eqn:E; cbn.
  - now rewrite Hp, E.
  - now rewrite E.
Qed.

(** A filter [q] coarser than nothing: rows that pass [q] and are not
    the assigned one are left as they were. *)
Lemma filter_update_first q p f rows :
  (forall r, q (f r) = q r) ->
  List.filter q (update_first p f rows)
  = update_first p f (List.filter q rows)
  \/ List.filter q (update_first p f rows) = List.filter q rows.
Proof.
  intros Hq. induction rows as [|r rows IH]; [now left|]. cbn.
  destruct (p r) eqn:Ep; cbn.
  - rewrite Hq. destruct (q r); cbn; [rewrite Ep; now left | now right].
  - destruct (q r) eqn:Eq; cbn.
    + rewrite Ep. destruct IH as [-> | ->]; [now left | now right].
    + exact IH.
Qed.

Lemma insert_desc_perm (key : A -> Z) x rows :
  Permutation (insert_desc key x rows) (x :: rows).
Proof.
  induction rows as [|y rows IH]; cbn; [reflexivity|].
  destruct (key y <=? key x); [reflexivity|].
  rewrite IH. apply perm_swap.
Qed.

Lemma order_by_desc_perm (key : A -> Z) rows :
  Permutation (order_by_desc key rows) rows.
Proof.
  induction rows as [|y rows IH]; cbn; [reflexivity|].
  rewrite insert_desc_perm. now constructor.
Qed.

Lemma order_by_desc_length (key : A -> Z) rows :
  length (order_by_desc key rows) = length rows.
Proof. apply Permutation_length, order_by_desc_perm. Qed.

Lemma insert_desc_sorted (key : A -> Z) x rows :
  StronglySorted (desc key) rows ->
  StronglySorted (desc key) (insert_desc key x rows).
Proof.
  induction 1 as [|y rows Hs IH Hall]; cbn.
  - repeat constructor.
  - destruct (key y <=? key x) eqn:E.
    + apply Z.leb_le in E. constructor; [now constructor|].
      constructor; [exact E|].
      eapply List.Forall_impl; [|exact Hall]. unfold desc. intros; lia.
    + apply Z.leb_gt in E. constructor; [exact IH|].
      eapply Permutation_Forall; [symmetry; apply insert_desc_perm|].
      constructor; [unfold desc; lia | exact Hall].
Qed.

Lemma order_by_desc_sorted (key : A -> Z) rows :
  StronglySorted (desc key) (order_by_desc key rows).
Proof.
  induction rows as [|y rows IH]; cbn; [constructor|].
  now apply insert_desc_sorted.
Qed.



Lemma insert_by_text_perm (key : A -> pystr) x rows :
  Permutation (insert_by_text key x rows) (x :: rows).
Proof.
  induction rows as [|y rows IH]; cbn; [reflexivity|].
  destruct (text_leb _ _); [reflexivity|].
  rewrite IH. apply perm_swap.
Qed.

Lemma index_scan_perm (key : A -> pystr) rows :
  Permutation (index_scan key rows) rows.
Proof.
  induction rows as [|y rows IH]; cbn; [reflexivity|].
  rewrite insert_by_text_perm. now constructor.
Qed.

Lemma order_by_desc_head (key : A -> Z) rows x :
  In x rows ->
  (forall y, In y rows -> y = x \/ key y < key x) ->
  exists rest, order_by_desc key rows = x :: rest.
Proof.
  intros Hin Hmax.
  pose proof (order_by_desc_sorted key rows) as Hs.
  pose proof (order_by_desc_perm key rows) as Hp.
  destruct (order_by_desc key rows) as [|z rest] eqn:E.
  - apply Permutation_nil in Hp. subst. destruct Hin.
  - exists rest. f_equal.
    assert (In z rows) as Hz by (eapply Permutation_in; [exact Hp | now left]).
    destruct (Hmax z Hz) as [->|Hlt]; [reflexivity|].
    exfalso. inversion Hs as [|? ? _ Hall]; subst.
    assert (In x (z :: rest)) as Hx
      by (eapply Permutation_in; [symmetry; exact Hp | exact Hin]).
    destruct Hx as [->|Hx]; [lia|].
    rewrite List.Forall_forall in Hall. specialize (Hall x Hx).
    unfold desc in Hall. lia.
Qed.

End Tables.

(** ** The hasher *)

Lemma le_bytes_length n x : length (MD5.le_bytes n x) = n.
Proof. unfold MD5.le_bytes. now rewrite length_map, length_seq. Qed.

Lemma digest_length msg : length (MD5.digest msg) = 16%nat.
Proof. unfold MD5.digest. now rewrite !length_app, !le_bytes_length. Qed.

Lemma hex_length (bs : list Z) :
  length (concat (List.map MD5.hex_byte bs)) = (2 * length bs)%nat.
Proof.
  induction bs as [|b bs IH]; [reflexivity|].
  cbn [List.map concat]. rewrite length_app, IH. cbn. lia.
Qed.

Lemma hexdigest_length msg : length (MD5.hexdigest msg) = 32%nat.
Proof. unfold MD5.hexdigest. now rewrite hex_length, digest_length. Qed.

Lemma le_bytes_range n x :
  List.Forall (fun b => 0 <= b < 256) (MD5.le_bytes n x).
Proof.
  unfold MD5.le_bytes. apply List.Forall_map, List.Forall_forall. intros i _.
  change 255 with (Z.ones 8). rewrite Z.land_ones by lia.
  apply Z.mod_pos_bound. lia.
Qed.

Lemma digest_range msg : List.Forall (fun b => 0 <= b < 256) (MD5.digest msg).
Proof.
  unfold MD5.digest. rewrite !List.Forall_app. repeat split; apply le_bytes_range.
Qed.

Lemma hex_digit_char n : 0 <= n < 16 -> hex_char (MD5.hex_digit n).
Proof.
  intros H. unfold MD5.hex_digit, hex_char.
  destruct (n <? 10) eqn:E; [apply Z.ltb_lt in E | apply Z.ltb_ge in E]; lia.
Qed.

Lemma hex_byte_chars b : 0 <= b < 256 -> List.Forall hex_char (MD5.hex_byte b).
Proof.
  intros H. unfold MD5.hex_byte.
  constructor; [|constructor; [|constructor]]; apply hex_digit_char.
  - rewrite Z.shiftr_div_pow2 by lia. change (2 ^ 4) with 16.
    split; [apply Z.div_pos; lia | apply Z.div_lt_upper_bound; lia].
  - change 15 with (Z.ones 4). rewrite Z.land_ones by lia.
    apply Z.mod_pos_bound. lia.
Qed.

Lemma hexdigest_chars msg : List.Forall hex_char (MD5.hexdigest msg).
Proof.
  unfold MD5.hexdigest. pose proof (digest_range msg) as H.
  induction H as [|b bs Hb _ IH]; cbn [List.map concat]; [constructor|].
  apply List.Forall_app. split; [now apply hex_byte_chars | exact IH].
Qed.

Lemma utf8_char_none c : utf8_char c = None <-> unencodable c.
Proof.
  unfold utf8_char, unencodable.
  destruct (c <? 0) eqn:E0; [apply Z.ltb_lt in E0; intuition lia|].
  apply Z.ltb_ge in E0.
  destruct (c <? 128) eqn:E1;
    [apply Z.ltb_lt in E1; split; [discriminate | lia]|].
  apply Z.ltb_ge in E1.
  destruct (c <? 2048) eqn:E2;
    [apply Z.ltb_lt in E2; split; [discriminate | lia]|].
  apply Z.ltb_ge in E2.
  destruct ((55296 <=? c) && (c <=? 57343)) eqn:E3.
  { apply andb_true_iff in E3. destruct E3 as [Ea Eb].
    apply Z.leb_le in Ea, Eb. intuition lia. }
  apply andb_false_iff in E3.
  assert (c < 55296 \/ 57343 < c) as Hs
    by (destruct E3 as [E3|E3]; apply Z.leb_gt in E3; lia).
  destruct (c <? 65536) eqn:E4;
    [apply Z.ltb_lt in E4; split; [discriminate | lia]|].
  apply Z.ltb_ge in E4.
  destruct (c <? 1114112) eqn:E5;
    [apply Z.ltb_lt in E5; split; [discriminate | lia]|].
  apply Z.ltb_ge in E5. split; [intros _; lia | reflexivity].
Qed.

Lemma encode_none s : encode s = None <-> List.Exists unencodable s.
Proof.
  induction s as [|c s IH]; cbn [encode].
  - split; [discriminate | intros H; inversion H].
  - rewrite List.Exists_cons, <- IH, <- utf8_char_none.
    destruct (utf8_char c), (encode s); intuition congruence.
Qed.

Lemma encode_some s :
  ~ List.Exists unencodable s -> exists bytes, encode s = Some bytes.
Proof.
  intros H. destruct (encode s) as [bytes|] eqn:E; [eauto|].
  now apply encode_none in E.
Qed.

Lemma bindable_true s : bindable s = true <-> ~ List.Exists unencodable s.
Proof.
  unfold bindable. rewrite <- encode_none.
  destruct (encode s); split; congruence.
Qed.

Lemma bindable_false s : bindable s = false <-> List.Exists unencodable s.
Proof.
  unfold bindable. rewrite <- encode_none.
  destruct (encode s); split; congruence.
Qed.

Lemma hex_char_encodable c : hex_char c -> ~ unencodable c.
Proof. unfold hex_char, unencodable. lia. Qed.

Lemma hexdigest_bindable msg : bindable (MD5.hexdigest msg) = true.
Proof.
  apply bindable_true. intros Hex. apply List.Exists_exists in Hex.
  destruct Hex as (c & Hin & Hc).
  pose proof (hexdigest_chars msg) as Hall. rewrite List.Forall_forall in Hall.
  exact (hex_char_encodable c (Hall c Hin) Hc).
Qed.

Lemma hash_question_bindable lower q h :
  _hash_question lower q = Ok h -> bindable h = true.
Proof.
  unfold _hash_question. destruct (encode _); [|discriminate].
  intros [= <-]. apply hexdigest_bindable.
Qed.

Lemma hash_question_cases lower q :
  (exists h, _hash_question lower q = Ok h
             /\ ~ List.Exists unencodable (strip (lower q)))
  \/ (_hash_question lower q = Raise UnicodeEncodeError
      /\ List.Exists unencodable (strip (lower q))).
Proof.
  unfold _hash_question.
  destruct (encode (strip (lower q))) as [bytes|] eqn:E.
  - left. eexists. split; [reflexivity|].
    intros Hex. apply encode_none in Hex. congruence.
  - right. split; [reflexivity | now apply encode_none].
Qed.

(** C3. Two questions that are equal after normalisation (lower-casing,
    then stripping the surrounding whitespace) have the same fingerprint.
    When the normalised question has a UTF-8 encoding (no lone surrogate),
    the fingerprint of both is returned and is the 32-character hexadecimal
    MD5 digest of that encoding; no other value is ever returned. *)
Theorem fingerprint_of_normalized (lower : pystr -> pystr) (q1 q2 : pystr) :
  strip (lower q1) = strip (lower q2) ->
  _hash_question lower q1 = _hash_question lower q2
  /\ (~ List.Exists unencodable (strip (lower q1)) ->
      exists bytes, encode (strip (lower q1)) = Some bytes
                    /\ _hash_question lower q1 = Ok (MD5.hexdigest bytes)
                    /\ _hash_question lower q2 = Ok (MD5.hexdigest bytes)
                    /\ length (MD5.hexdigest bytes) = 32%nat)
  /\ (forall h, _hash_question lower q1 = Ok h ->
        length h = 32%nat
        /\ exists bytes, encode (strip (lower q1)) = Some bytes
                         /\ h = MD5.hexdigest bytes).
Proof.
  intros Hn. unfold _hash_question. rewrite <- Hn. split; [reflexivity|].
  split.
  - intros Henc. destruct (encode_some _ Henc) as [bytes E].
    exists bytes. rewrite E. repeat split; apply hexdigest_length.
  - intros h. destruct (encode (strip (lower q1))) as [bytes|]; [|discriminate].
    intros [= <-]. split; [apply hexdigest_length | eauto].
Qed.

Lemma fingerprint_of_normalized_witness :
  strip (ascii_lower (lit "What?")) = strip (ascii_lower (lit "  WHAT? "))
  /\ _hash_question ascii_lower (lit "What?")
     = Ok (lit "8717cfca734e8987971f63b20eeb8024")
  /\ _hash_question ascii_lower (lit "  WHAT? ")
     = Ok (lit "8717cfca734e8987971f63b20eeb8024").
Proof.
  assert (strip (ascii_lower (lit "What?"))
          = strip (ascii_lower (lit "  WHAT? "))) as H
    by (vm_compute; reflexivity).
  assert (~ List.Exists unencodable (strip (ascii_lower (lit "What?")))) as Henc
    by (rewrite <- encode_none; vm_compute; discriminate).
  split; [exact H|].
  destruct (proj1 (proj2 (fingerprint_of_normalized ascii_lower _ _ H)) Henc)
    as (bytes & E & H1 & H2 & _).
  assert (bytes = [119; 104; 97; 116; 63]) as ->
    by (vm_compute in E; congruence).
  split; [exact H1 | exact H2].
Defined.

(** ** The freshness policy *)

Lemma fresh_usable now e : fresh now e = true <-> usable now e.
Proof.
  unfold fresh, usable. rewrite andb_true_iff, Z.gtb_lt.
  destruct (CacheMetadata.is_valid e); cbn; intuition congruence.
Qed.

Lemma fresh_expired now e :
  CacheMetadata.expires_at e <= now -> fresh now e = false.
Proof.
  intros H. destruct (fresh now e) eqn:E; [|reflexivity].
  apply fresh_usable in E. destruct E. lia.
Qed.

Lemma pystr_eqb_eq a b : pystr_eqb a b = true <-> a = b.
Proof. unfold pystr_eqb. apply bool_decide_eq_true. Qed.

Lemma pystr_eqb_refl a : pystr_eqb a a = true.
Proof. now apply pystr_eqb_eq. Qed.

Lemma is_cache_valid_iff db now key :
  is_cache_valid db now key = true <-> usable_entry db now key.
Proof.
  unfold is_cache_valid, usable_entry. split.
  - destruct (first _ _) as [e|] eqn:E; [|discriminate]. intros _.
    apply first_Some in E. destruct E as [Hin Hp].
    apply andb_true_iff in Hp. destruct Hp as [Hk Hf].
    exists e. now rewrite <- (fresh_usable now e), <- pystr_eqb_eq.
  - intros (e & Hin & Hk & Hu).
    destruct (first_found
                (fun e => pystr_eqb (CacheMetadata.cache_key e) key && fresh now e)
                _ e Hin) as [y ->]; [|reflexivity].
    apply andb_true_iff. now rewrite pystr_eqb_eq, fresh_usable.
Qed.

Lemma get_letters_from_cache_miss db now limit offset :
  is_cache_valid db now (lit "letters_list") = false ->
  get_letters_from_cache db now limit offset = ([], false).
Proof.
  unfold is_cache_valid, get_letters_from_cache.
  now destruct (first _ _).
Qed.

Lemma get_letters_from_cache_hit db now limit offset :
  is_cache_valid db now (lit "letters_list") = true ->
  get_letters_from_cache db now limit offset
  = (List.map (fun letter =>
                 letter_dict (EconomicLetter.title letter)
                   (EconomicLetter.url letter) (EconomicLetter.date letter)
                   (EconomicLetter.summary letter)
                   (EconomicLetter.content letter))
       (sql_limit limit
          (sql_offset offset
             (order_by_desc EconomicLetter.scraped_at (economic_letters db)))),
     offset + limit <? Z.of_nat (length (economic_letters db))).
Proof.
  unfold is_cache_valid, get_letters_from_cache.
  destruct (first _ _); [|discriminate]. intros _.
  now rewrite order_by_desc_length.
Qed.

(** C2. On the three read paths ([is_cache_valid],
    [get_letters_from_cache], [get_cache_stats]) a cache entry counts
    exactly when its validity flag is true and the current time is
    strictly before its expiry: the key is valid iff such an entry exists,
    the page of letters is served iff one exists for "letters_list" (and
    is the empty miss otherwise), the statistics count exactly such entries,
    and an entry whose expiry is not in the future fails the filter even
    with its flag set. *)
Theorem usable_gates_reads (db : DB) (now : Z) :
  (forall key, is_cache_valid db now key = true <-> usable_entry db now key)
  /\ (forall limit offset,
        ~ usable_entry db now (lit "letters_list") ->
        get_letters_from_cache db now limit offset = ([], false))
  /\ (forall limit offset,
        usable_entry db now (lit "letters_list") ->
        get_letters_from_cache db now limit offset
        = (List.map (fun letter =>
                       letter_dict (EconomicLetter.title letter)
                         (EconomicLetter.url letter) (EconomicLetter.date letter)
                         (EconomicLetter.summary letter)
                         (EconomicLetter.content letter))
             (sql_limit limit
                (sql_offset offset
                   (order_by_desc EconomicLetter.scraped_at
                      (economic_letters db)))),
           offset + limit <? Z.of_nat (length (economic_letters db))))
  /\ valid_caches (get_cache_stats db now)
     = length (List.filter (fun e => bool_decide (usable now e))
                 (cache_metadata db))
  /\ (forall e, CacheMetadata.is_valid e = true ->
                CacheMetadata.expires_at e <= now ->
                ~ usable now e /\ fresh now e = false).
Proof.
  split; [intros key; apply is_cache_valid_iff|].
  split.
  { intros limit offset Hn. apply get_letters_from_cache_miss.
    destruct (is_cache_valid db now (lit "letters_list")) eqn:E; [|reflexivity].
    apply is_cache_valid_iff in E. contradiction. }
  split.
  { intros limit offset Hu. apply get_letters_from_cache_hit.
    now apply is_cache_valid_iff. }
  split.
  { cbn. f_equal. apply filter_ext. intros e.
    destruct (bool_decide (usable now e)) eqn:E.
    - apply bool_decide_eq_true in E. destruct E as [-> Hlt].
      cbn. now apply Z.gtb_lt.
    - apply bool_decide_eq_false in E.
      destruct (CacheMetadata.is_valid e) eqn:Ev; [cbn|reflexivity].
      destruct (CacheMetadata.expires_at e >? now) eqn:Eg; [|reflexivity].
      exfalso. apply E. split; [exact Ev | now apply Z.gtb_lt]. }
  intros e _ Hexp. split; [intros [_ Hlt]; lia | now apply fresh_expired].
Qed.






(** ** Dictionaries of letters *)

Lemma letter_dict_url t u d s c : getitem (letter_dict t u d s c) (lit "url") = Ok u.
Proof. reflexivity. Qed.
Lemma letter_dict_title t u d s c : getitem (letter_dict t u d s c) (lit "title") = Ok t.
Proof. reflexivity. Qed.
Lemma letter_dict_date t u d s c : getitem (letter_dict t u d s c) (lit "date") = Ok d.
Proof. reflexivity. Qed.
Lemma letter_dict_summary t u d s c : getitem (letter_dict t u d s c) (lit "summary") = Ok s.
Proof. reflexivity. Qed.
Lemma letter_dict_content t u d s c : getitem (letter_dict t u d s c) (lit "content") = Ok c.
Proof. reflexivity. Qed.

(** ** Storing letters *)

Lemma known_url_urls rows u :
  known_url rows u
  = existsb (fun v => pystr_eqb v u) (List.map EconomicLetter.url rows).
Proof.
  unfold known_url. induction rows as [|r rows IH]; [reflexivity|].
  cbn. now rewrite IH.
Qed.

Lemma known_url_In rows u :
  known_url rows u = true <-> In u (List.map EconomicLetter.url rows).
Proof.
  rewrite known_url_urls, existsb_exists. split.
  - intros (v & Hin & Hv). apply pystr_eqb_eq in Hv. now subst.
  - intros Hin. exists u. split; [exact Hin | apply pystr_eqb_refl].
Qed.

Lemma known_url_not_In rows u :
  known_url rows u = false <-> ~ In u (List.map EconomicLetter.url rows).
Proof.
  rewrite <- known_url_In. destruct (known_url rows u); intuition congruence.
Qed.

Lemma known_url_first rows u :
  known_url rows u
  = match first (same_url u) rows with Some _ => true | None => false end.
Proof.
  unfold known_url, same_url. induction rows as [|r rows IH]; [reflexivity|].
  cbn. destruct (pystr_eqb _ _); [reflexivity | exact IH].
Qed.

Lemma known_url_app rows rows' u :
  known_url (rows ++ rows') u = known_url rows u || known_url rows' u.
Proof. unfold known_url. apply existsb_app. Qed.

Lemma bind_all_forallb params :
  bind_all params
  = if forallb bindable params then Ok tt else Raise UnicodeEncodeError.
Proof.
  induction params as [|p params IH]; [reflexivity|]. cbn [bind_all forallb].
  destruct (bindable p); [exact IH | reflexivity].
Qed.

Lemma store_letter_fields now s d n :
  letter_fields d = Some n ->
  store_letter now s d
  = if bindable (nl_url n)
    then Ok (if known_url (economic_letters (loaded s)) (nl_url n)
             then mkSession
                    (mkDB (update_first (same_url (nl_url n)) (assign_letter now n)
                             (economic_letters (loaded s)))
                       (insights (loaded s)) (cache_metadata (loaded s)))
                    (new_letters s) (new_insights s) (new_caches s)
                    (assigned s ++ update_texts n)
             else mkSession (loaded s) (new_letters s ++ [n])
                    (new_insights s) (new_caches s) (assigned s))
    else Raise UnicodeEncodeError.
Proof.
  unfold letter_fields, store_letter, getitem.
  destruct (d !! lit "url") as [u|]; [|discriminate].
  destruct (d !! lit "title") as [t|]; [|discriminate].
  destruct (d !! lit "date") as [dt|]; [|discriminate].
  destruct (d !! lit "content") as [c|]; [|discriminate].
  destruct (d !! lit "summary") as [sm|]; [|discriminate].
  intros [= <-]. cbn. destruct (bindable u); [|reflexivity].
  cbn. rewrite known_url_first. unfold same_url.
  now destruct (first _ _).
Qed.

Lemma store_letter_missing now s d :
  letter_fields d = None -> exists e, store_letter now s d = Raise e.
Proof.
  unfold letter_fields, store_letter, getitem.
  destruct (d !! lit "url") as [u|]; [|cbn; eauto].
  cbn. destruct (bindable u); [|cbn; eauto].
  destruct (d !! lit "title"); [|cbn; destruct (first _ _); eauto].
  destruct (d !! lit "date"); [|cbn; destruct (first _ _); eauto].
  destruct (d !! lit "content"); [|cbn; destruct (first _ _); eauto].
  destruct (d !! lit "summary"); [|cbn; destruct (first _ _); eauto].
  intros H; discriminate H.
Qed.

Lemma update_first_In {A} (p : A -> bool) f rows r :
  In r rows -> p r = false -> In r (update_first p f rows).
Proof.
  induction rows as [|x rows IH]; [intros []|]. cbn.
  intros [->|Hin] Hp.
  - rewrite Hp. now left.
  - destruct (p x); [now right | right; auto].
Qed.

Lemma update_first_found {A} (p : A -> bool) f rows r :
  first p rows = Some r -> In (f r) (update_first p f rows).
Proof.
  induction rows as [|x rows IH]; [discriminate|]. cbn.
  destruct (p x); [intros [= ->]; now left | right; auto].
Qed.

(** A dictionary without one of the five keys stops the loop. *)
Lemma for_each_store_letter_missing now ds :
  forall s, batch_fields ds = None ->
            exists e, for_each (store_letter now) ds s = Raise e.
Proof.
  induction ds as [|d ds IH]; intros s; cbn [batch_fields for_each]; [discriminate|].
  destruct (letter_fields d) as [n|] eqn:E.
  - rewrite (store_letter_fields _ _ _ _ E).
    destruct (batch_fields ds); [discriminate|]. intros _.
    destruct (bindable (nl_url n)); [|cbn; eauto].
    cbn [mbind result_bind]. apply IH. reflexivity.
  - intros _. destruct (store_letter_missing now s d E) as [e ->]. cbn. eauto.
Qed.

(** So does a URL the query cannot bind. *)
Lemma for_each_store_letter_unbindable now ds :
  forall s ns, batch_fields ds = Some ns ->
    forallb (fun n => bindable (nl_url n)) ns = false ->
    exists e, for_each (store_letter now) ds s = Raise e.
Proof.
  induction ds as [|d ds IH]; intros s ns; cbn [batch_fields for_each].
  - intros [= <-]. discriminate.
  - destruct (letter_fields d) as [n|] eqn:E; [|discriminate].
    destruct (batch_fields ds) as [ns'|] eqn:Eb; [|discriminate].
    intros [= <-]. cbn [forallb]. rewrite (store_letter_fields _ _ _ _ E).
    destruct (bindable (nl_url n)); [|cbn; eauto].
    cbn [andb mbind result_bind]. now apply IH.
Qed.

Lemma known_url_same rows rows' u :
  List.map EconomicLetter.url rows = List.map EconomicLetter.url rows' ->
  known_url rows u = known_url rows' u.
Proof. intros H. now rewrite !known_url_urls, H. Qed.

Lemma assign_letter_url now n rows :
  List.map EconomicLetter.url
    (update_first (same_url (nl_url n)) (assign_letter now n) rows)
  = List.map EconomicLetter.url rows.
Proof. now apply update_first_map. Qed.

Lemma for_each_store_letter now ds :
  forall s ns, batch_fields ds = Some ns ->
    forallb (fun n => bindable (nl_url n)) ns = true ->
    exists s', for_each (store_letter now) ds s = Ok s'
               /\ letters_written now s ns s'.
Proof.
  induction ds as [|d ds IH]; intros s ns; cbn [batch_fields for_each].
  - intros [= <-] _. exists s. split; [reflexivity|].
    unfold letters_written. cbn. rewrite !app_nil_r.
    repeat split; auto. intros _ n [].
  - destruct (letter_fields d) as [n|] eqn:E; [|discriminate].
    destruct (batch_fields ds) as [ns'|] eqn:Eb; [|discriminate].
    intros [= <-]. cbn [forallb]. intros Hbind.
    apply andb_true_iff in Hbind. destruct Hbind as [Hbn Hbind].
    rewrite (store_letter_fields _ _ _ _ E), Hbn.
    cbn [mbind result_bind].
    set (s1 := if known_url _ _ then _ else _).
    destruct (IH s1 ns' eq_refl Hbind)
      as (s' & Hrun & Hi & Hc & Hni & Hnc & Has & Hu & Hnl & Hfr & Hup).
    assert (List.map EconomicLetter.url (economic_letters (loaded s1))
            = List.map EconomicLetter.url (economic_letters (loaded s))) as Hu1.
    { subst s1. destruct (known_url _ _); cbn; [apply assign_letter_url | reflexivity]. }
    assert (forall u, known_url (economic_letters (loaded s1)) u
                      = known_url (economic_letters (loaded s)) u) as Hk
      by (intros u; now apply known_url_same).
    exists s'. split; [exact Hrun|]. unfold letters_written.
    split; [rewrite Hi; subst s1; now destruct (known_url _ _)|].
    split; [rewrite Hc; subst s1; now destruct (known_url _ _)|].
    split; [rewrite Hni; subst s1; now destruct (known_url _ _)|].
    split; [rewrite Hnc; subst s1; now destruct (known_url _ _)|].
    split.
    { rewrite Has. cbn [List.filter].
      erewrite filter_ext by (intros; rewrite Hk; reflexivity).
      subst s1. destruct (known_url _ _); cbn [assigned List.map concat];
        [now rewrite <- app_assoc | reflexivity]. }
    split; [now rewrite Hu|].
    split.
    { rewrite Hnl. cbn [List.filter].
      erewrite filter_ext by (intros; rewrite Hk; reflexivity).
      subst s1. destruct (known_url _ _); cbn; [reflexivity|].
      now rewrite <- app_assoc. }
    split.
    { intros r Hin Hnot. apply Hfr.
      - subst s1. destruct (known_url _ _); cbn; [|exact Hin].
        apply update_first_In; [exact Hin|].
        unfold same_url. destruct (pystr_eqb _ _) eqn:Ee; [|reflexivity].
        apply pystr_eqb_eq in Ee. exfalso. apply Hnot. cbn. now left.
      - intros Hin'. apply Hnot. cbn. now right. }
    intros Hnd m [<-|Hm] Hknown; inversion Hnd as [|? ? Hnotin Hnd']; subst.
    + assert (exists r0, first (same_url (nl_url n)) (economic_letters (loaded s)) = Some r0)
        as [r0 Hr0].
      { rewrite known_url_first in Hknown. destruct (first _ _); [eauto|discriminate]. }
      pose proof (first_Some _ _ _ Hr0) as [_ Hurl].
      apply pystr_eqb_eq in Hurl.
      exists (assign_letter now n r0). split.
      * apply Hfr; [|cbn; now rewrite Hurl].
        subst s1. rewrite Hknown. cbn. now apply update_first_found.
      * unfold letter_data. cbn. rewrite Hurl. now destruct n.
    + apply Hup; [exact Hnd' | exact Hm | now rewrite Hk].
Qed.

Lemma insert_letters_ok new :
  forall now rows,
    (forall n, In n new -> known_url rows (nl_url n) = false) ->
    List.NoDup (List.map nl_url new) ->
    forallb storable new = true ->
    exists added,
      insert_letters now rows new = Ok (rows ++ added)
      /\ List.map letter_data added = new
      /\ stamped now added.
Proof.
  induction new as [|n new IH]; intros now rows Hfresh Hnd Hst;
    cbn [insert_letters].
  - exists []. rewrite app_nil_r. repeat split.
  - cbn [forallb] in Hst. apply andb_true_iff in Hst. destruct Hst as [Hn Hst].
    rewrite bind_all_forallb. change (forallb bindable _) with (storable n).
    rewrite Hn. cbn [mbind result_bind].
    fold (known_url rows (nl_url n)). rewrite (Hfresh n (or_introl eq_refl)).
    inversion Hnd as [|? ? Hnotin Hnd']; subst.
    set (row := EconomicLetter.mk _ _ _ _ _ _ _ _).
    destruct (IH (now + 1) (rows ++ [row])) as (added & Hrun & Hdata & Htime);
      [|exact Hnd'|exact Hst|].
    + intros m Hm. rewrite known_url_app, (Hfresh m (or_intror Hm)). cbn.
      rewrite orb_false_r. destruct (pystr_eqb _ _) eqn:E; [|reflexivity].
      apply pystr_eqb_eq in E. exfalso. apply Hnotin. rewrite E.
      now apply in_map.
    + exists (row :: added). rewrite Hrun, <- app_assoc. split; [reflexivity|].
      split; [cbn; rewrite Hdata; now destruct n|].
      cbn [stamped]. now repeat split.
Qed.

Lemma insert_letters_inv new :
  forall now rows rows',
    insert_letters now rows new = Ok rows' ->
    (forall n, In n new -> known_url rows (nl_url n) = false)
    /\ List.NoDup (List.map nl_url new)
    /\ forallb storable new = true.
Proof.
  induction new as [|n new IH]; intros now rows rows'; cbn [insert_letters].
  - intros _. split; [intros n []|split; [constructor|reflexivity]].
  - rewrite bind_all_forallb. change (forallb bindable _) with (storable n).
    destruct (storable n) eqn:Hn; [|discriminate]. cbn [mbind result_bind].
    fold (known_url rows (nl_url n)).
    destruct (known_url rows (nl_url n)) eqn:Ek; [discriminate|].
    intros Hrun. apply IH in Hrun. destruct Hrun as (Hfresh & Hnd & Hst).
    assert (forall m, In m new ->
              known_url rows (nl_url m) = false /\ nl_url n <> nl_url m) as H.
    { intros m Hm. specialize (Hfresh m Hm).
      rewrite known_url_app in Hfresh. apply orb_false_iff in Hfresh.
      destruct Hfresh as [H1 H2]. split; [exact H1|].
      cbn in H2. rewrite orb_false_r in H2. intros Heq.
      rewrite Heq, pystr_eqb_refl in H2. discriminate. }
    split; [|split].
    + intros m [<-|Hm]; [exact Ek | now apply H].
    + cbn. constructor; [|exact Hnd].
      intros Hin. apply in_map_iff in Hin. destruct Hin as (m & Heq & Hm).
      now apply (H m Hm).
    + cbn [forallb]. now rewrite Hn.
Qed.

Lemma touch_letters_list_commit now count s :
  new_caches s = [] ->
  let s2 := touch_letters_list now count s in
  economic_letters (loaded s2) = economic_letters (loaded s)
  /\ insights (loaded s2) = insights (loaded s)
  /\ new_letters s2 = new_letters s
  /\ new_insights s2 = new_insights s
  /\ assigned s2 = assigned s
  /\ insert_caches now (cache_metadata (loaded s2)) (new_caches s2)
     = Ok (refreshed now count (cache_metadata (loaded s))).
Proof.
  intros Hnc. unfold touch_letters_list, refreshed, same_key.
  destruct (first _ _) eqn:E; cbn.
  - rewrite Hnc. now repeat split.
  - rewrite Hnc. cbn. repeat split.
    replace (existsb _ _) with false; [reflexivity|].
    symmetry. apply not_true_is_false. intros Hex.
    apply existsb_exists in Hex. destruct Hex as (e & Hin & He).
    pose proof (first_None _ _ E e Hin) as Hn. cbn in Hn. congruence.
Qed.

(** The texts of a batch are bound in three places: the URLs by the
    queries of the loop, the other texts of the known documents by the
    UPDATE statements, the texts of the new documents by the INSERT
    statements. *)
Lemma storable_parts (p : NewLetter -> bool) ns :
  forallb storable ns = true
  <-> forallb (fun n => bindable (nl_url n)) ns = true
      /\ forallb bindable (concat (List.map update_texts (List.filter p ns))) = true
      /\ forallb storable (List.filter (fun n => negb (p n)) ns) = true.
Proof.
  induction ns as [|n ns IH]; [cbn; tauto|].
  cbn [forallb List.filter]. rewrite andb_true_iff, IH.
  assert (storable n = true
          <-> bindable (nl_url n) = true
              /\ forallb bindable (update_texts n) = true) as Hn.
  { unfold storable, letter_texts, update_texts. cbn [forallb].
    now rewrite andb_true_iff. }
  destruct (p n); cbn [negb List.map concat forallb];
    rewrite ?forallb_app, ?andb_true_iff, Hn; tauto.
Qed.

Lemma store_letters_ok db now ds ns :
  batch_fields ds = Some ns ->
  forallb storable ns = true ->
  List.NoDup (fresh_urls db ns) ->
  exists upd added,
    store_letters db now ds
    = (true, mkDB (upd ++ added) (insights db)
               (refreshed now (length ds) (cache_metadata db)))
    /\ List.map EconomicLetter.url upd
       = List.map EconomicLetter.url (economic_letters db)
    /\ List.map letter_data added
       = List.filter
           (fun n => negb (known_url (economic_letters db) (nl_url n))) ns
    /\ stamped now added
    /\ (forall r, In r (economic_letters db) ->
                  ~ In (EconomicLetter.url r) (List.map nl_url ns) ->
                  In r upd)
    /\ (List.NoDup (List.map nl_url ns) ->
        forall n, In n ns ->
                  known_url (economic_letters db) (nl_url n) = true ->
                  exists r, In r upd /\ letter_data r = n
                            /\ EconomicLetter.updated_at r = now).
Proof.
  intros Hb Hst Hnd. unfold store_letters.
  apply (storable_parts
           (fun n => known_url (economic_letters db) (nl_url n))) in Hst.
  destruct Hst as (Hurls & Hupd & Hnew).
  destruct (for_each_store_letter now ds (get_db db) ns Hb Hurls)
    as (s' & Hrun & Hi & Hc & Hni & Hnc & Has & Hu & Hnl & Hfr & Hup).
  rewrite Hrun. cbn [mbind result_bind].
  cbn in Hi, Hc, Hni, Hnc, Has, Hu, Hnl, Hfr, Hup.
  destruct (touch_letters_list_commit now (length ds) s' Hnc)
    as (Hl2 & Hi2 & Hnl2 & Hni2 & Has2 & Hcache).
  unfold commit.
  rewrite Has2, Has, bind_all_forallb, Hupd. cbn [mbind result_bind].
  rewrite Hl2, Hi2, Hnl2, Hni2, Hcache, Hnl, Hni, Hi, Hc.
  destruct (insert_letters_ok
              (List.filter
                 (fun n => negb (known_url (economic_letters db) (nl_url n))) ns)
              now (economic_letters (loaded s')))
    as (added & Hins & Hdata & Htime).
  { intros n Hn. apply filter_In in Hn. destruct Hn as [_ Hn].
    rewrite (known_url_same _ _ _ Hu). now apply negb_true_iff in Hn. }
  { exact Hnd. }
  { exact Hnew. }
  rewrite Hins. cbn.
  exists (economic_letters (loaded s')), added. now repeat split.
Qed.

Lemma store_letters_result db now ds :
  store_letters db now ds = (false, db)
  \/ exists db', store_letters db now ds = (true, db').
Proof.
  unfold store_letters, try_commit.
  destruct (mbind _ _); [right; eauto | now left].
Qed.

Lemma store_letters_true db now ds db' :
  store_letters db now ds = (true, db') -> writable db ds.
Proof.
  unfold writable, store_letters.
  destruct (batch_fields ds) as [ns|] eqn:Hb.
  2:{ destruct (for_each_store_letter_missing now ds (get_db db) Hb) as [e ->].
      intros H; discriminate H. }
  destruct (forallb (fun n => bindable (nl_url n)) ns) eqn:Hurls.
  2:{ destruct (for_each_store_letter_unbindable now ds (get_db db) ns Hb Hurls)
        as [e ->].
      intros H; discriminate H. }
  destruct (for_each_store_letter now ds (get_db db) ns Hb Hurls)
    as (s' & Hrun & Hi & Hc & Hni & Hnc & Has & Hu & Hnl & Hfr & Hup).
  rewrite Hrun. cbn [mbind result_bind]. cbn in Hnc, Has, Hnl.
  destruct (touch_letters_list_commit now (length ds) s' Hnc)
    as (Hl2 & Hi2 & Hnl2 & Hni2 & Has2 & Hcache).
  unfold commit. rewrite Has2, Has, bind_all_forallb.
  destruct (forallb bindable _) eqn:Hupd; [|intros H; discriminate H].
  cbn [mbind result_bind]. rewrite Hl2, Hnl2, Hnl.
  destruct (insert_letters _ _ _) as [rows'|e] eqn:E; [|intros H; discriminate H].
  intros _. apply insert_letters_inv in E. destruct E as (_ & Hnd & Hnew).
  exists ns. split; [reflexivity|]. split; [|exact Hnd].
  apply (storable_parts
           (fun n => known_url (economic_letters db) (nl_url n))).
  now repeat split.
Qed.

Lemma store_letters_false db now ds :
  ~ writable db ds -> store_letters db now ds = (false, db).
Proof.
  intros Hn. destruct (store_letters_result db now ds) as [H | [db' H]];
    [exact H|].
  exfalso. apply Hn. now apply (store_letters_true db now ds db').
Qed.



Lemma store_letters_unstorable db now ds ns :
  batch_fields ds = Some ns -> forallb storable ns = false ->
  store_letters db now ds = (false, db).
Proof.
  intros Hb Hst. apply store_letters_false. intros (ns' & Hb' & Hst' & _).
  rewrite Hb in Hb'. injection Hb' as <-. congruence.
Qed.


Lemma urls_of_data rows :
  List.map nl_url (List.map letter_data rows) = List.map EconomicLetter.url rows.
Proof. rewrite map_map. reflexivity. Qed.

(** The source identifiers after a successful [store_letters]: the old
    ones in their order, then the new ones of the batch. *)
Lemma store_letters_urls db now ds db' :
  store_letters db now ds = (true, db') ->
  exists ns, batch_fields ds = Some ns
             /\ forallb storable ns = true
             /\ List.NoDup (fresh_urls db ns)
             /\ List.map EconomicLetter.url (economic_letters db')
                = List.map EconomicLetter.url (economic_letters db)
                  ++ fresh_urls db ns.
Proof.
  intros H. destruct (store_letters_true _ _ _ _ H) as (ns & Hb & Hst & Hnd).
  exists ns. split; [exact Hb|]. split; [exact Hst|]. split; [exact Hnd|].
  destruct (store_letters_ok db now ds ns Hb Hst Hnd)
    as (upd & added & Heq & Hu & Hdata & _).
  rewrite Heq in H. injection H as <-. cbn.
  rewrite map_app, Hu. f_equal. unfold fresh_urls.
  now rewrite <- Hdata, urls_of_data.
Qed.

Lemma store_letters_unique db now ds :
  urls_unique db -> urls_unique (snd (store_letters db now ds)).
Proof.
  intros Hdb. destruct (store_letters_result db now ds) as [-> | [db' H]];
    [exact Hdb|].
  rewrite H. cbn. unfold urls_unique.
  destruct (store_letters_urls _ _ _ _ H) as (ns & _ & _ & Hnd & ->).
  apply List.NoDup_app; [exact Hdb | exact Hnd|].
  intros u Hin Hin'. unfold fresh_urls in Hin'.
  apply in_map_iff in Hin'. destruct Hin' as (n & <- & Hn).
  apply filter_In in Hn. destruct Hn as [_ Hn].
  apply negb_true_iff, known_url_not_In in Hn. contradiction.
Qed.


Lemma refreshed_valid now now' count rows :
  now' < now + timedelta_hours CACHE_EXPIRY_HOURS ->
  exists e,
    first (fun e => pystr_eqb (CacheMetadata.cache_key e) (lit "letters_list")
                    && fresh now' e)
      (refreshed now count rows) = Some e.
Proof.
  intros Hlt. unfold refreshed.
  destruct (first (same_key (lit "letters_list")) rows) as [e0|] eqn:E.
  - apply (first_found _ _ (refresh_entry now e0)).
    + now apply update_first_found.
    + apply first_Some in E. destruct E as [_ E]. unfold same_key in E.
      cbn. rewrite E. cbn. unfold fresh. cbn.
      rewrite andb_true_r. now apply Z.gtb_lt.
  - eapply first_found.
    + apply in_app_iff. right. now left.
    + cbn. unfold fresh. cbn. rewrite andb_true_r. now apply Z.gtb_lt.
Qed.

Lemma store_letters_valid db now ds db' now' :
  store_letters db now ds = (true, db') ->
  now' < now + timedelta_hours CACHE_EXPIRY_HOURS ->
  is_cache_valid db' now' (lit "letters_list") = true.
Proof.
  intros H Hlt. destruct (store_letters_true _ _ _ _ H) as (ns & Hb & Hst & Hnd).
  destruct (store_letters_ok db now ds ns Hb Hst Hnd) as (upd & added & Heq & _).
  rewrite Heq in H. injection H as <-. unfold is_cache_valid.
  cbn [cache_metadata].
  now destruct (refreshed_valid now now' (length ds) (cache_metadata db) Hlt)
    as [e ->].
Qed.




Lemma filter_nothing {A} (p : A -> bool) rows :
  (forall x, In x rows -> p x = false) -> List.filter p rows = [].
Proof.
  induction rows as [|x rows IH]; [reflexivity|]. intros H. cbn.
  rewrite (H x (or_introl eq_refl)). apply IH. intros y Hy. apply H. now right.
Qed.


Lemma letter_dict_fields t u dt s c :
  letter_fields (letter_dict t u dt s c) = Some (mkNewLetter u t dt c s).
Proof. reflexivity. Qed.

Lemma fresh_urls_one db n : List.NoDup (fresh_urls db [n]).
Proof.
  unfold fresh_urls. cbn. destruct (negb _); cbn; repeat constructor. intros [].
Qed.


(** One well-formed document whose texts can be bound always goes
    through. *)
Lemma store_letters_one db now t u dt s c :
  storable (mkNewLetter u t dt c s) = true ->
  exists db', store_letters db now [letter_dict t u dt s c] = (true, db').
Proof.
  intros Hst.
  destruct (store_letters_ok db now [letter_dict t u dt s c]
              [mkNewLetter u t dt c s]) as (upd & added & -> & _).
  - cbn [batch_fields]. now rewrite letter_dict_fields.
  - cbn [forallb]. now rewrite Hst.
  - apply fresh_urls_one.
  - eauto.
Qed.




(** ** Answers *)

Lemma first_app_none {A} (p : A -> bool) rows rows' :
  first p rows = None -> first p (rows ++ rows') = first p rows'.
Proof.
  induction rows as [|x rows IH]; [reflexivity|]. cbn.
  destruct (p x); [discriminate | exact IH].
Qed.

Lemma update_first_inv {A} (p : A -> bool) f rows r0 y :
  first p rows = Some r0 -> In y (update_first p f rows) -> y = f r0 \/ In y rows.
Proof.
  induction rows as [|x rows IH]; [discriminate|]. cbn.
  destruct (p x).
  - intros [= ->] [<-|Hin]; [now left | right; now right].
  - intros E [<-|Hin]; [right; now left|].
    destruct (IH E Hin); [now left | right; now right].
Qed.

(** With unique keys, a filter on the key keeps one row. *)
Lemma filter_unique_key {A K} (key : A -> K) (p : A -> bool) (k : K) rows r :
  (forall x, p x = true <-> key x = k) ->
  List.NoDup (List.map key rows) -> In r rows -> p r = true ->
  List.filter p rows = [r].
Proof.
  intros Hp. induction rows as [|x rows IH]; [intros _ []|].
  cbn [List.map List.filter]. intros Hnd Hin Hr.
  inversion Hnd as [|? ? Hnotin Hnd']; subst.
  assert (forall y, In y rows -> p y = true -> In (key x) (List.map key rows) ->
                    False) as Hother by (intros; contradiction).
  destruct Hin as [->|Hin].
  - rewrite Hr. f_equal. apply filter_nothing. intros y Hy.
    destruct (p y) eqn:E; [|reflexivity]. exfalso. apply Hnotin.
    apply Hp in E, Hr. rewrite Hr, <- E. now apply in_map.
  - destruct (p x) eqn:E; [|now apply IH]. exfalso. apply Hnotin.
    apply Hp in E, Hr. rewrite E, <- Hr. now apply in_map.
Qed.

Lemma same_question_key url h i :
  same_question url h i = true <-> answer_key i = (url, h).
Proof.
  unfold same_question, answer_key.
  rewrite andb_true_iff, !pystr_eqb_eq. split; [intros [-> ->]|intros [= -> ->]]; auto.
Qed.

(** What [store_insight] returns: it fails when the question has no
    fingerprint, when the document identifier or the answer cannot be
    bound, and, for a pair that has no answer yet, when the question itself
    cannot be bound; otherwise it writes the answer. *)
Lemma store_insight_cases lower db now url q a :
  store_insight lower db now url q a
  = match _hash_question lower q with
    | Raise _ => (false, db)
    | Ok h =>
        if bindable url && bindable a
           && match first (same_question url h) (insights db) with
              | Some _ => true
              | None => bindable q
              end
        then (true, mkDB (economic_letters db)
                      (upserted now url q h a (insights db))
                      (cache_metadata db))
        else (false, db)
    end.
Proof.
  unfold store_insight, upserted.
  destruct (_hash_question lower q) as [h|e] eqn:Hh; [|reflexivity].
  pose proof (hash_question_bindable lower q h Hh) as Hbh.
  cbn [mbind result_bind bind_all].
  destruct (bindable url) eqn:Hu; [|reflexivity].
  cbn [andb get_db loaded new_letters new_insights new_caches assigned].
  destruct (first _ _); unfold commit;
    cbn [app assigned new_letters new_insights new_caches loaded
         economic_letters insights cache_metadata bind_all insert_letters
         insert_insights insert_caches mbind result_bind
         ni_letter_url ni_question ni_question_hash ni_insight].
  - now destruct (bindable a).
  - rewrite Hu, Hbh. destruct (bindable q), (bindable a); reflexivity.
Qed.

Lemma store_insight_ok lower db now url q a h :
  _hash_question lower q = Ok h ->
  bindable url = true -> bindable a = true ->
  (first (same_question url h) (insights db) = None -> bindable q = true) ->
  store_insight lower db now url q a
  = (true, mkDB (economic_letters db) (upserted now url q h a (insights db))
             (cache_metadata db)).
Proof.
  intros Hh Hu Ha Hq. rewrite store_insight_cases, Hh, Hu, Ha.
  destruct (first _ _); [reflexivity|]. now rewrite Hq.
Qed.

Lemma store_insight_raise lower db now url q a e :
  _hash_question lower q = Raise e ->
  store_insight lower db now url q a = (false, db).
Proof. intros Hh. now rewrite store_insight_cases, Hh. Qed.

Lemma store_insight_result lower db now url q a :
  store_insight lower db now url q a = (false, db)
  \/ exists h, _hash_question lower q = Ok h
               /\ store_insight lower db now url q a
                  = (true, mkDB (economic_letters db)
                             (upserted now url q h a (insights db))
                             (cache_metadata db)).
Proof.
  rewrite store_insight_cases.
  destruct (_hash_question lower q) as [h|e]; [|now left].
  destruct (_ && _); [right; eauto | now left].
Qed.

Lemma upserted_first now url q h a rows :
  exists i, first (same_question url h) (upserted now url q h a rows) = Some i
            /\ Insight.insight i = a /\ Insight.created_at i = now.
Proof.
  unfold upserted. destruct (first _ rows) as [i0|] eqn:E.
  - rewrite first_update_first, E by reflexivity. cbn. eauto.
  - rewrite (first_app_none _ _ _ E). cbn.
    unfold same_question. cbn. rewrite !pystr_eqb_refl. cbn. eauto.
Qed.

Lemma upserted_unique now url q h a rows :
  List.NoDup (List.map answer_key rows) ->
  List.NoDup (List.map answer_key (upserted now url q h a rows)).
Proof.
  intros Hnd. unfold upserted. destruct (first _ rows) as [i0|] eqn:E.
  - now rewrite update_first_map.
  - rewrite map_app. apply List.NoDup_app; [exact Hnd | repeat constructor; intros []|].
    intros k Hin [<-|[]]. apply in_map_iff in Hin. destruct Hin as (i & Hk & Hi).
    pose proof (first_None _ _ E i Hi) as Hn.
    change (answer_key i = (url, h)) in Hk.
    apply same_question_key in Hk. congruence.
Qed.

Lemma get_cached_insight_cases lower db url q :
  get_cached_insight lower db url q
  = match _hash_question lower q with
    | Raise e => Raise e
    | Ok h =>
        if bindable url
        then Ok (option_map Insight.insight
                   (first (same_question url h) (insights db)))
        else Raise UnicodeEncodeError
    end.
Proof.
  unfold get_cached_insight.
  destruct (_hash_question lower q) as [h|e]; [|reflexivity].
  cbn [mbind result_bind bind_all].
  destruct (bindable url); [|reflexivity].
  now destruct (first _ _).
Qed.

Lemma get_cached_insight_first lower db url q h :
  _hash_question lower q = Ok h ->
  bindable url = true ->
  get_cached_insight lower db url q
  = Ok (option_map Insight.insight (first (same_question url h) (insights db))).
Proof. intros Hh Hu. now rewrite get_cached_insight_cases, Hh, Hu. Qed.

(** C6. After two writes for the same document and question, where the
    database driver can encode the document identifier and the two
    answers (and the question itself, when the pair has no answer yet and
    a row is inserted), both succeed, there is exactly one answer row for
    the (document, fingerprint) pair, uniqueness of the pairs is kept, and
    [get_cached_insight] returns the second text, for any question of that
    fingerprint, whatever the cache-metadata table holds (it reads no
    clock and no cache entry). *)
Theorem latest_answer_wins (lower : pystr -> pystr) (db : DB) (now1 now2 : Z)
    (url q a1 a2 h : pystr) :
  _hash_question lower q = Ok h ->
  bindable url = true -> bindable a1 = true -> bindable a2 = true ->
  (first (same_question url h) (insights db) = None -> bindable q = true) ->
  answers_unique db ->
  let r1 := store_insight lower db now1 url q a1 in
  let r2 := store_insight lower (snd r1) now2 url q a2 in
  fst r1 = true /\ fst r2 = true
  /\ answers_unique (snd r1) /\ answers_unique (snd r2)
  /\ length (List.filter (same_question url h) (insights (snd r1))) = 1%nat
  /\ length (List.filter (same_question url h) (insights (snd r2))) = 1%nat
  /\ get_cached_insight lower (snd r1) url q = Ok (Some a1)
  /\ get_cached_insight lower (snd r2) url q = Ok (Some a2)
  /\ (forall q' caches,
        _hash_question lower q' = Ok h ->
        get_cached_insight lower
          (mkDB (economic_letters (snd r2)) (insights (snd r2)) caches) url q'
        = Ok (Some a2)).
Proof.
  intros Hh Hbu Hb1 Hb2 Hbq Hdb r1 r2. subst r1 r2.
  rewrite (store_insight_ok lower db now1 url q a1 h Hh Hbu Hb1 Hbq).
  cbn [fst snd].
  rewrite (store_insight_ok lower _ now2 url q a2 h Hh Hbu Hb2).
  2:{ cbn [insights].
      destruct (upserted_first now1 url q h a1 (insights db)) as (i & -> & _).
      discriminate. }
  cbn [fst snd insights].
  set (rows1 := upserted now1 url q h a1 (insights db)).
  set (rows2 := upserted now2 url q h a2 rows1).
  assert (List.NoDup (List.map answer_key rows1)) as Hu1
    by now apply upserted_unique.
  assert (List.NoDup (List.map answer_key rows2)) as Hu2
    by now apply upserted_unique.
  destruct (upserted_first now1 url q h a1 (insights db)) as (i1 & Hf1 & Ha1 & _).
  destruct (upserted_first now2 url q h a2 rows1) as (i2 & Hf2 & Ha2 & _).
  fold rows1 in Hf1. fold rows2 in Hf2.
  assert (forall rows i, List.NoDup (List.map answer_key rows) ->
            first (same_question url h) rows = Some i ->
            length (List.filter (same_question url h) rows) = 1%nat) as Hone.
  { intros rows i Hnd Hf. apply first_Some in Hf. destruct Hf as [Hin Hp].
    now rewrite (filter_unique_key answer_key _ (url, h) rows i
                   (same_question_key url h) Hnd Hin Hp). }
  repeat split; try assumption; try reflexivity.
  - now apply (Hone rows1 i1).
  - now apply (Hone rows2 i2).
  - rewrite (get_cached_insight_first _ _ _ _ _ Hh Hbu). cbn [insights].
    now rewrite Hf1, <- Ha1.
  - rewrite (get_cached_insight_first _ _ _ _ _ Hh Hbu). cbn [insights].
    now rewrite Hf2, <- Ha2.
  - intros q' caches Hh'.
    rewrite (get_cached_insight_first _ _ _ _ _ Hh' Hbu). cbn [insights].
    now rewrite Hf2, <- Ha2.
Qed.

Lemma latest_answer_wins_witness :
  _hash_question ascii_lower (lit "What?")
  = Ok (lit "8717cfca734e8987971f63b20eeb8024")
  /\ answers_unique empty_db
  /\ get_cached_insight ascii_lower
       (snd (store_insight ascii_lower
               (snd (store_insight ascii_lower empty_db 10 (lit "a")
                       (lit "What?") (lit "old")))
               20 (lit "a") (lit "What?") (lit "new")))
       (lit "a") (lit "What?")
     = Ok (Some (lit "new")).
Proof.
  assert (_hash_question ascii_lower (lit "What?")
          = Ok (lit "8717cfca734e8987971f63b20eeb8024")) as Hh
    by (vm_compute; reflexivity).
  assert (answers_unique empty_db) as Hdb by constructor.
  split; [exact Hh|]. split; [exact Hdb|].
  destruct (latest_answer_wins ascii_lower empty_db 10 20 (lit "a") (lit "What?")
              (lit "old") (lit "new") _ Hh)
    as (_ & _ & _ & _ & _ & _ & _ & Hget & _);
    [vm_compute; reflexivity | vm_compute; reflexivity | vm_compute; reflexivity
    | intros _; vm_compute; reflexivity | exact Hdb |].
  exact Hget.
Defined.

Lemma history_of_rows db url :
  List.map hi_created_at (get_question_history db url)
  = List.map Insight.created_at
      (order_by_desc Insight.created_at
         (index_scan Insight.question_hash
            (List.filter (fun i => pystr_eqb (Insight.letter_url i) url)
               (insights db)))).
Proof. unfold get_question_history. now rewrite map_map. Qed.

Lemma sorted_map {A B} (f : A -> B) (R : B -> B -> Prop) l :
  StronglySorted (fun x y => R (f x) (f y)) l -> StronglySorted R (List.map f l).
Proof.
  induction 1 as [|x l Hs IH Hall]; cbn; constructor; [exact IH|].
  apply List.Forall_map. exact Hall.
Qed.

Lemma index_scan_In {A} (key : A -> pystr) rows x :
  In x (index_scan key rows) <-> In x rows.
Proof.
  split; apply Permutation_in;
    [apply index_scan_perm | symmetry; apply index_scan_perm].
Qed.

(** C9. Writing an answer (a text the database driver can encode) for a
    pair that already has one keeps the row (its id and question text) but
    sets its [created_at] to the time of the write;
    [get_question_history] is ordered newest first by that timestamp, so
    when the write is later than every stored timestamp the overwritten
    answer heads the history of its letter. *)
Theorem overwrite_resets_created_at (lower : pystr -> pystr) (db : DB) (now : Z)
    (url q a h : pystr) (old : Insight.t) :
  _hash_question lower q = Ok h ->
  bindable url = true -> bindable a = true ->
  first (same_question url h) (insights db) = Some old ->
  let r := store_insight lower db now url q a in
  fst r = true
  /\ first (same_question url h) (insights (snd r))
     = Some (Insight.mk (Insight.id old) (Insight.letter_url old)
               (Insight.question old) (Insight.question_hash old) a now)
  /\ length (insights (snd r)) = length (insights db)
  /\ StronglySorted (fun x y => y <= x)
       (List.map hi_created_at (get_question_history (snd r) url))
  /\ ((forall i, In i (insights db) -> Insight.created_at i < now) ->
      exists rest,
        get_question_history (snd r) url
        = mkHistoryItem (Insight.id old) (Insight.question old) a now :: rest).
Proof.
  intros Hh Hbu Hba Hold r. subst r.
  rewrite (store_insight_ok lower db now url q a h Hh Hbu Hba)
    by (rewrite Hold; discriminate).
  cbn [fst snd insights].
  unfold upserted. rewrite Hold.
  split; [reflexivity|]. split.
  { rewrite first_update_first, Hold by reflexivity. reflexivity. }
  split; [apply update_first_length|]. split.
  { rewrite history_of_rows. cbn [insights]. apply sorted_map.
    apply order_by_desc_sorted. }
  intros Hpast. unfold get_question_history. cbn [insights].
  pose proof (first_Some _ _ _ Hold) as [Hin Hp].
  apply andb_true_iff in Hp. destruct Hp as [Hurl _].
  destruct (order_by_desc_head Insight.created_at
              (index_scan Insight.question_hash
                 (List.filter (fun i => pystr_eqb (Insight.letter_url i) url)
                    (update_first (same_question url h) (assign_insight now a)
                       (insights db))))
              (assign_insight now a old)) as [rest ->].
  - apply index_scan_In, filter_In.
    split; [now apply update_first_found | exact Hurl].
  - intros y Hy. apply index_scan_In, filter_In in Hy. destruct Hy as [Hy _].
    destruct (update_first_inv _ _ _ _ _ Hold Hy) as [->|Hy']; [now left|].
    right. cbn. now apply Hpast.
  - cbn. eauto.
Qed.

Lemma overwrite_resets_created_at_witness :
  _hash_question ascii_lower (lit "what?")
  = Ok (lit "8717cfca734e8987971f63b20eeb8024")
  /\ first (same_question (lit "a") (lit "8717cfca734e8987971f63b20eeb8024"))
       (insights Examples.db_two_answers)
     = Some (Insight.mk 1 (lit "a") (lit "What?")
               (lit "8717cfca734e8987971f63b20eeb8024") (lit "old") 10)
  /\ exists rest,
       get_question_history
         (snd (store_insight ascii_lower Examples.db_two_answers 30 (lit "a")
                 (lit "what?") (lit "new")))
         (lit "a")
       = mkHistoryItem 1 (lit "What?") (lit "new") 30 :: rest.
Proof.
  assert (_hash_question ascii_lower (lit "what?")
          = Ok (lit "8717cfca734e8987971f63b20eeb8024")) as Hh
    by (vm_compute; reflexivity).
  assert (first (same_question (lit "a") (lit "8717cfca734e8987971f63b20eeb8024"))
            (insights Examples.db_two_answers)
          = Some (Insight.mk 1 (lit "a") (lit "What?")
                    (lit "8717cfca734e8987971f63b20eeb8024") (lit "old") 10))
    as Hold by (vm_compute; reflexivity).
  split; [exact Hh|]. split; [exact Hold|].
  destruct (overwrite_resets_created_at ascii_lower Examples.db_two_answers 30
              (lit "a") (lit "what?") (lit "new") _
              (Insight.mk 1 (lit "a") (lit "What?")
                 (lit "8717cfca734e8987971f63b20eeb8024") (lit "old") 10) Hh)
    as (_ & _ & _ & _ & Hhead);
    [vm_compute; reflexivity | vm_compute; reflexivity | exact Hold |].
  apply Hhead. intros i [<-|[<-|[]]]; vm_compute; reflexivity.
Defined.

(** Two answers written at the same time come out in the order of their
    fingerprints, whatever their order in the table. *)
Example history_ties_in_hash_order :
  List.map hi_id
    (get_question_history
       (mkDB []
          [Insight.mk 1 (lit "a") (lit "Why?")
             (lit "fd1562614f1983c875db9c78c89e31f6") (lit "because") 10;
           Insight.mk 2 (lit "a") (lit "What?")
             (lit "8717cfca734e8987971f63b20eeb8024") (lit "that") 10]
          [])
       (lit "a"))
  = [2; 1].
Proof. vm_compute. reflexivity. Qed.

Example history_order_follows_last_write :
  List.map hi_id (get_question_history Examples.db_two_answers (lit "a")) = [2; 1]
  /\ List.map hi_id
       (get_question_history
          (snd (store_insight ascii_lower Examples.db_two_answers 30 (lit "a")
                  (lit "what?") (lit "new")))
          (lit "a"))
     = [1; 2].
Proof. split; vm_compute; reflexivity. Qed.

(** ** Invalidation *)

Lemma clear_cache_entries db category :
  cache_metadata (clear_cache db category)
  = List.map (invalidate_nonempty category) (cache_metadata db).
Proof.
  unfold clear_cache. cbn [cache_metadata]. apply map_ext. intros e.
  unfold invalidate_nonempty, truthy.
  destruct category as [[|c0 c]|]; try reflexivity.
  cbn beta iota zeta.
  repeat case_bool_decide; try reflexivity; exfalso; congruence.
Qed.

Lemma first_map_none {A} (p : A -> bool) (g : A -> A) rows :
  (forall x, In x rows -> p (g x) = false) -> first p (List.map g rows) = None.
Proof.
  induction rows as [|x rows IH]; [reflexivity|]. intros H. cbn.
  rewrite (H x (or_introl eq_refl)). apply IH. intros y Hy. apply H. now right.
Qed.

Lemma invalidate_letters_list e :
  invalidate_nonempty (Some (lit "letters_list")) e
  = if bool_decide (CacheMetadata.cache_type e = lit "letters_list")
    then invalidated e else e.
Proof. reflexivity. Qed.

Lemma letters_list_invalidated db now :
  letters_list_tagged db ->
  is_cache_valid (clear_cache db (Some (lit "letters_list"))) now
    (lit "letters_list") = false.
Proof.
  intros Htag. unfold is_cache_valid. rewrite clear_cache_entries.
  rewrite first_map_none; [reflexivity|].
  intros e Hin. rewrite invalidate_letters_list.
  case_bool_decide as Et.
  - unfold fresh. cbn. now rewrite !andb_false_r.
  - destruct (pystr_eqb _ _) eqn:Ek; [|reflexivity].
    exfalso. apply Et, Htag; [exact Hin | now apply pystr_eqb_eq in Ek].
Qed.

(** C7 as stated fails on an empty category string: the entry tagged
    "letters_list" does not match the empty category, yet it is
    invalidated. *)
Lemma clear_cache_empty_category :
  let db := Examples.db_one_letter in
  List.map CacheMetadata.cache_type (cache_metadata db) = [lit "letters_list"]
  /\ List.map CacheMetadata.is_valid (cache_metadata db) = [true]
  /\ List.map CacheMetadata.is_valid (cache_metadata (clear_cache db (Some [])))
     = [false]
  /\ cache_metadata (clear_cache db (Some []))
     <> List.map (invalidate_spec (Some [])) (cache_metadata db).
Proof. vm_compute. repeat split. discriminate. Qed.

(** C7 (amended). [clear_cache] leaves the letters and the answers as
    they are and clears the validity flag of every cache entry when no
    category or an empty one is given, and of exactly the entries of the
    category when a non-empty one is given. Once "letters_list" is
    invalidated, [get_letters_from_cache] returns the empty miss at any
    time and for any page, with the letters still stored. *)
Theorem clear_cache_invalidates (db : DB) (category : option pystr) :
  economic_letters (clear_cache db category) = economic_letters db
  /\ insights (clear_cache db category) = insights db
  /\ cache_metadata (clear_cache db category)
     = List.map (invalidate_nonempty category) (cache_metadata db)
  /\ (letters_list_tagged db ->
      forall now limit offset,
        get_letters_from_cache (clear_cache db (Some (lit "letters_list")))
          now limit offset = ([], false)
        /\ economic_letters (clear_cache db (Some (lit "letters_list")))
           = economic_letters db).
Proof.
  split; [reflexivity|]. split; [reflexivity|].
  split; [apply clear_cache_entries|].
  intros Htag now limit offset. split; [|reflexivity].
  apply get_letters_from_cache_miss. now apply letters_list_invalidated.
Qed.

(** The tag of the "letters_list" entry is an invariant of the writes. *)
Lemma letters_list_tagged_empty : letters_list_tagged empty_db.
Proof. intros e []. Qed.

Lemma store_letters_tagged db now ds :
  letters_list_tagged db -> letters_list_tagged (snd (store_letters db now ds)).
Proof.
  intros Htag. destruct (store_letters_result db now ds) as [-> | [db' H]];
    [exact Htag|].
  destruct (store_letters_true _ _ _ _ H) as (ns & Hb & Hst & Hnd).
  destruct (store_letters_ok db now ds ns Hb Hst Hnd) as (upd & added & -> & _).
  cbn [snd]. unfold letters_list_tagged. cbn [cache_metadata]. unfold refreshed.
  intros e Hin Hk.
  destruct (first _ _) as [e0|] eqn:E.
  - destruct (update_first_inv _ _ _ _ _ E Hin) as [->|Hin']; [|now apply Htag].
    apply first_Some in E. destruct E as [Hin0 _]. cbn. now apply Htag.
  - apply in_app_iff in Hin. destruct Hin as [Hin|[<-|[]]]; [now apply Htag|].
    reflexivity.
Qed.

Lemma clear_cache_tagged db category :
  letters_list_tagged db -> letters_list_tagged (clear_cache db category).
Proof.
  intros Htag e. rewrite clear_cache_entries. intros Hin Hk.
  apply in_map_iff in Hin. destruct Hin as (e0 & <- & Hin).
  assert (CacheMetadata.cache_key (invalidate_nonempty category e0)
          = CacheMetadata.cache_key e0
          /\ CacheMetadata.cache_type (invalidate_nonempty category e0)
             = CacheMetadata.cache_type e0) as [H1 H2].
  { unfold invalidate_nonempty. destruct category as [[|c0 c]|]; try now split.
    now destruct (bool_decide _). }
  rewrite H2. apply Htag; [exact Hin | now rewrite <- H1].
Qed.

Lemma clear_cache_witness :
  letters_list_tagged Examples.db_one_letter
  /\ get_letters_from_cache
       (clear_cache Examples.db_one_letter (Some (lit "letters_list"))) 500 10 0
     = ([], false)
  /\ economic_letters (clear_cache Examples.db_one_letter (Some (lit "letters_list")))
     = economic_letters Examples.db_one_letter.
Proof.
  assert (letters_list_tagged Examples.db_one_letter) as H
    by (intros e [<-|[]] _; reflexivity).
  split; [exact H|].
  destruct (clear_cache_invalidates Examples.db_one_letter None) as (_ & _ & _ & Hs).
  exact (Hs H 500 10 0).
Defined.

(** ** The fetch orchestrator *)

Lemma nonempty_false {A} (l : list A) : nonempty l = false <-> l = [].
Proof. destruct l; cbn; intuition congruence. Qed.

(** Time only takes usability away: a read that comes back empty stays
    empty later on the same tables. *)
Lemma get_letters_from_cache_later db now now' limit offset :
  now <= now' ->
  fst (get_letters_from_cache db now limit offset) = [] ->
  fst (get_letters_from_cache db now' limit offset) = [].
Proof.
  intros Hle Hempty.
  destruct (is_cache_valid db now' (lit "letters_list")) eqn:E'.
  - assert (is_cache_valid db now (lit "letters_list") = true) as E.
    { apply is_cache_valid_iff. apply is_cache_valid_iff in E'.
      destruct E' as (e & Hin & Hk & Hv & Hlt).
      exists e. repeat split; try assumption. lia. }
    rewrite (get_letters_from_cache_hit _ _ _ _ E') .
    now rewrite (get_letters_from_cache_hit _ _ _ _ E) in Hempty.
  - now rewrite (get_letters_from_cache_miss _ _ _ _ E').
Qed.

(** When the listing page cannot be fetched the result is always the empty
    list: the fallback reads through the same freshness filter as the
    read that has just come back empty. *)
Lemma scrape_failure_empty digit content db now now' limit :
  now <= now' ->
  fst (get_letters_from_cache db now limit 0) = [] ->
  scrape_economic_letters digit content db now now' limit None = (db, []).
Proof.
  intros Hle Hempty. unfold scrape_economic_letters.
  pose proof (get_letters_from_cache_later db now now' limit 0 Hle Hempty) as Hl.
  destruct (get_letters_from_cache db now limit 0) as [cached hm].
  destruct (get_letters_from_cache db now' limit 0) as [fallback hm'].
  cbn in Hempty, Hl. subst. reflexivity.
Qed.

(** C1 fails on the code. One letter was stored at time 0, so its
    "letters_list" entry was usable then and expired 24 hours later; at 25
    hours the listing page cannot be fetched. The fallback read goes
    through the freshness filter again, so the stored letter is not
    returned. *)
Theorem expired_cache_no_fallback :
  List.map EconomicLetter.url (economic_letters Examples.db_one_letter) = [lit "a"]
  /\ is_cache_valid Examples.db_one_letter 1 (lit "letters_list") = true
  /\ is_cache_valid Examples.db_one_letter (timedelta_hours 25) (lit "letters_list")
     = false
  /\ forall digit content,
       scrape_economic_letters digit content Examples.db_one_letter
         (timedelta_hours 25) (timedelta_hours 25 + 1) 10 None
       = (Examples.db_one_letter, []).
Proof.
  split; [reflexivity|]. split; [reflexivity|]. split; [reflexivity|].
  intros digit content. apply scrape_failure_empty; [lia|].
  vm_compute. reflexivity.
Qed.

Lemma slice_to_nonneg {A} (l : list A) n :
  0 <= n -> slice_to l n = firstn (Z.to_nat n) l.
Proof.
  intros H. unfold slice_to.
  now replace (n <? 0) with false by (symmetry; apply Z.ltb_ge; lia).
Qed.

Section Fetched.
Variable digit : Z -> bool.
Variable content : pystr -> pystr.

Lemma scrape_link_cases acc link :
  scrape_link digit content acc link = acc
  \/ exists t u dt s c,
       scrape_link digit content acc link = acc ++ [letter_dict t u dt s c].
Proof.
  unfold scrape_link. destruct (_ && _); [right; eauto 6 | now left].
Qed.

Lemma fetched_length links :
  forall acc,
    (length (fold_left (scrape_link digit content) links acc)
     <= length acc + length links)%nat.
Proof.
  induction links as [|link links IH]; intros acc; cbn [fold_left length]; [lia|].
  specialize (IH (scrape_link digit content acc link)).
  destruct (scrape_link_cases acc link) as [E | (t & u & dt & s & c & E)];
    rewrite E in *; [|rewrite length_app in IH; cbn in IH]; lia.
Qed.

Lemma fetched_fields links :
  forall acc,
    List.Forall (fun d => exists n, letter_fields d = Some n) acc ->
    List.Forall (fun d => exists n, letter_fields d = Some n)
      (fold_left (scrape_link digit content) links acc).
Proof.
  induction links as [|link links IH]; intros acc Hacc; cbn [fold_left];
    [exact Hacc|].
  apply IH.
  destruct (scrape_link_cases acc link) as [E | (t & u & dt & s & c & E)];
    rewrite E; [exact Hacc|].
  apply List.Forall_app. split; [exact Hacc|].
  constructor; [|constructor]. rewrite letter_dict_fields. eauto.
Qed.

End Fetched.

Lemma batch_fields_all ds :
  List.Forall (fun d => exists n, letter_fields d = Some n) ds ->
  exists ns, batch_fields ds = Some ns.
Proof.
  induction 1 as [|d ds [n Hn] _ [ns IH]]; cbn [batch_fields]; [eauto|].
  rewrite Hn, IH. eauto.
Qed.



Lemma NoDup_map_filter {A B} (g : A -> B) (f : A -> bool) l :
  List.NoDup (List.map g l) -> List.NoDup (List.map g (List.filter f l)).
Proof.
  induction l as [|x l IH]; cbn; [constructor|]. intros Hnd.
  inversion Hnd as [|? ? Hnotin Hnd']; subst.
  destruct (f x); cbn; [|now apply IH].
  constructor; [|now apply IH].
  intros Hin. apply Hnotin. apply in_map_iff in Hin.
  destruct Hin as (y & Hy & Hin). apply filter_In in Hin.
  rewrite <- Hy. apply in_map. tauto.
Qed.


(** One turn of the loop adds the item of the link, or nothing. *)
Lemma scrape_link_item digit content acc link :
  scrape_link digit content acc link
  = if listed link then acc ++ [link_item digit content link] else acc.
Proof.
  unfold scrape_link, listed, link_item, absolute_url.
  destruct (_ && _); [|reflexivity]. f_equal. f_equal.
  set (c := content _).
  rewrite slice_to_nonneg by lia. change (Z.to_nat 500) with 500%nat.
  destruct (Z.of_nat (length c) >? 500) eqn:E;
    destruct (500 <? length c)%nat eqn:E'; try reflexivity; exfalso.
  - apply Z.gtb_lt in E. apply Nat.ltb_ge in E'. lia.
  - apply Nat.ltb_lt in E'. rewrite Z.gtb_ltb in E. apply Z.ltb_ge in E. lia.
Qed.

(** The loop makes the items of the listed links, in the order of the
    page. *)
Lemma scrape_loop digit content links :
  forall acc,
    fold_left (scrape_link digit content) links acc
    = acc ++ List.map (link_item digit content) (List.filter listed links).
Proof.
  induction links as [|link links IH]; intros acc; cbn [fold_left List.filter].
  - now rewrite app_nil_r.
  - rewrite IH, scrape_link_item.
    destruct (listed link); [|reflexivity].
    cbn [List.map]. now rewrite <- app_assoc.
Qed.




Example miss_returns_one_stores_two :
  let r := scrape_economic_letters Examples.ascii_digit Examples.site empty_db
             0 5 1 (Some Examples.listing) in
  List.map (fun d : Dict => d !! lit "date") (snd r) = [Some (lit "2024")]
  /\ List.map EconomicLetter.title (economic_letters (fst r))
     = [lit "First"; lit "Second"]
  /\ List.map EconomicLetter.scraped_at (economic_letters (fst r)) = [5; 6]
  /\ is_cache_valid (fst r) 6 (lit "letters_list") = true.
Proof. vm_compute. repeat split. Qed.

(** ** Invariants of the stored state *)

Lemma store_letters_insights db now ds :
  insights (snd (store_letters db now ds)) = insights db.
Proof.
  destruct (store_letters_result db now ds) as [-> | [db' H]]; [reflexivity|].
  destruct (store_letters_true _ _ _ _ H) as (ns & Hb & Hst & Hnd).
  now destruct (store_letters_ok db now ds ns Hb Hst Hnd) as (upd & added & -> & _).
Qed.

Lemma delete_question_tables db question_id :
  economic_letters (snd (delete_question db question_id)) = economic_letters db
  /\ cache_metadata (snd (delete_question db question_id)) = cache_metadata db
  /\ exists keep,
       insights (snd (delete_question db question_id))
       = List.filter keep (insights db).
Proof.
  unfold delete_question. destruct (first _ _) as [i|]; cbn.
  - repeat split. eauto.
  - repeat split. exists (fun _ => true).
    symmetry. apply forallb_filter_id. now apply forallb_forall.
Qed.

(** The URL of a letter, the (document, fingerprint) pair of an answer and
    the tag of the "letters_list" entry are what the hypotheses of the
    theorems above ask of a database; every reachable state has them. *)
Lemma reachable_invariant lower db :
  reachable lower db ->
  urls_unique db /\ answers_unique db /\ letters_list_tagged db.
Proof.
  induction 1 as [| db now ds _ (IHu & IHa & IHt)
                  | db now url q a _ (IHu & IHa & IHt)
                  | db question_id _ (IHu & IHa & IHt)
                  | db category _ (IHu & IHa & IHt)].
  - repeat split; [constructor | constructor | apply letters_list_tagged_empty].
  - split; [now apply store_letters_unique|].
    split; [|now apply store_letters_tagged].
    unfold answers_unique. now rewrite store_letters_insights.
  - destruct (store_insight_result lower db now url q a) as [-> | (h & _ & ->)];
      [now repeat split|].
    cbn [snd]. repeat split; [exact IHu | | exact IHt].
    unfold answers_unique. cbn [insights]. now apply upserted_unique.
  - destruct (delete_question_tables db question_id) as (Hl & Hc & keep & Hi).
    unfold urls_unique, answers_unique, letters_list_tagged.
    rewrite Hl, Hc, Hi. repeat split; [exact IHu | | exact IHt].
    now apply NoDup_map_filter.
  - split; [exact IHu|]. split; [exact IHa|]. now apply clear_cache_tagged.
Qed.

(** * Further properties of the code *)

(** ** The hasher *)

(** X1. A fingerprint is 32 characters long and every character is a
    lower-case hexadecimal digit, so it is safe as a fixed-width text key. *)
Theorem fingerprint_is_hex (lower : pystr -> pystr) (q h : pystr) :
  _hash_question lower q = Ok h ->
  length h = 32%nat /\ List.Forall hex_char h.
Proof.
  unfold _hash_question. destruct (encode _) as [bytes|]; [|discriminate].
  intros [= <-]. split; [apply hexdigest_length | apply hexdigest_chars].
Qed.

Lemma fingerprint_is_hex_witness :
  _hash_question ascii_lower (lit "What?")
  = Ok (lit "8717cfca734e8987971f63b20eeb8024")
  /\ length (lit "8717cfca734e8987971f63b20eeb8024") = 32%nat
  /\ List.Forall hex_char (lit "8717cfca734e8987971f63b20eeb8024").
Proof.
  assert (_hash_question ascii_lower (lit "What?")
          = Ok (lit "8717cfca734e8987971f63b20eeb8024")) as H
    by (vm_compute; reflexivity).
  split; [exact H|]. exact (fingerprint_is_hex ascii_lower _ _ H).
Defined.

(** X2. [store_insight] returns False in exactly four cases: the
    normalised question holds a lone surrogate (or a number that is no
    code point) and has no fingerprint; the document identifier has no
    UTF-8 encoding; the answer has none; or the pair has no answer yet and
    the question as asked has none. The tables are then as they were.
    [get_cached_insight], which has no handler, raises
    [UnicodeEncodeError] exactly when the normalised question or the
    document identifier has no encoding, and raises nothing else. *)
Theorem unencodable_question (lower : pystr -> pystr) (db : DB) (now : Z)
    (url q a : pystr) :
  (fst (store_insight lower db now url q a) = false
   <-> List.Exists unencodable (strip (lower q))
       \/ List.Exists unencodable url
       \/ List.Exists unencodable a
       \/ (exists h, _hash_question lower q = Ok h
                     /\ first (same_question url h) (insights db) = None
                     /\ List.Exists unencodable q))
  /\ (fst (store_insight lower db now url q a) = false ->
      snd (store_insight lower db now url q a) = db)
  /\ (get_cached_insight lower db url q = Raise UnicodeEncodeError
      <-> List.Exists unencodable (strip (lower q))
          \/ List.Exists unencodable url)
  /\ (forall e, get_cached_insight lower db url q = Raise e ->
                e = UnicodeEncodeError).
Proof.
  rewrite store_insight_cases, get_cached_insight_cases.
  destruct (hash_question_cases lower q) as [(h & Hh & Hn) | [Hh Hex]];
    rewrite Hh.
  - set (b := bindable url && bindable a && _).
    assert (b = false
            <-> List.Exists unencodable url \/ List.Exists unencodable a
                \/ (first (same_question url h) (insights db) = None
                    /\ List.Exists unencodable q)) as Hb.
    { subst b. rewrite !andb_false_iff, !bindable_false.
      destruct (first _ _).
      - split; [intros [[?|?]|?]; auto; discriminate
               | intros [?|[?|[? ?]]]; auto; discriminate].
      - rewrite bindable_false. tauto. }
    split.
    { destruct b; cbn [fst]; split.
      - intros H; discriminate H.
      - intros [H|[H|[H|(h' & [= <-] & H1 & H2)]]];
          [contradiction | | |]; apply Hb; auto.
      - intros _. destruct (proj1 Hb eq_refl) as [H|[H|[H1 H2]]]; eauto 8.
      - reflexivity. }
    split; [destruct b; cbn; [intros H; discriminate H | reflexivity]|].
    destruct (bindable url) eqn:Hu.
    + apply bindable_true in Hu. split; [split|].
      * intros H; discriminate H.
      * intros [H|H]; contradiction.
      * intros e H; discriminate H.
    + apply bindable_false in Hu. split; [split; auto|].
      now intros e [= <-].
  - cbn [fst snd]. split; [split; auto|]. split; [reflexivity|].
    split; [split; auto|]. now intros e [= <-].
Qed.

Lemma unencodable_question_example :
  fst (store_insight ascii_lower Examples.db_two_answers 30 (lit "a")
         (lit "What?") [56320]) = false
  /\ fst (store_insight ascii_lower Examples.db_two_answers 30 [56320]
            (lit "What?") (lit "new")) = false
  /\ get_cached_insight ascii_lower Examples.db_two_answers [56320] (lit "What?")
     = Raise UnicodeEncodeError
  /\ get_cached_insight ascii_lower Examples.db_two_answers (lit "a") [56320]
     = Raise UnicodeEncodeError.
Proof. vm_compute. repeat split. Qed.

Lemma lstrip_spaces l s :
  List.Forall (fun c => isspace c = true) l -> lstrip (l ++ s) = lstrip s.
Proof.
  induction 1 as [|c l Hc _ IH]; [reflexivity|]. cbn. now rewrite Hc.
Qed.

Lemma lstrip_all_spaces s :
  lstrip s = [] <-> List.Forall (fun c => isspace c = true) s.
Proof.
  induction s as [|c s IH]; cbn; [split; [constructor | reflexivity]|].
  destruct (isspace c) eqn:E.
  - rewrite IH. split; [now constructor | now inversion 1].
  - split; [discriminate | inversion 1; congruence].
Qed.

Lemma lstrip_app s r :
  lstrip (s ++ r) = match lstrip s with [] => lstrip r | _ => lstrip s ++ r end.
Proof.
  induction s as [|c s IH]; cbn; [now destruct (lstrip r)|].
  now destruct (isspace c).
Qed.

Lemma rstrip_spaces s r :
  List.Forall (fun c => isspace c = true) r -> rstrip (s ++ r) = rstrip s.
Proof.
  intros Hr. unfold rstrip. rewrite rev_app_distr, lstrip_spaces; [reflexivity|].
  now apply List.Forall_rev.
Qed.

Lemma strip_padding l s r :
  List.Forall (fun c => isspace c = true) l ->
  List.Forall (fun c => isspace c = true) r ->
  strip (l ++ s ++ r) = strip s.
Proof.
  intros Hl Hr. unfold strip. rewrite (lstrip_spaces l _ Hl), lstrip_app.
  destruct (lstrip s) as [|c s'] eqn:E.
  - now rewrite (proj2 (lstrip_all_spaces r) Hr).
  - now apply rstrip_spaces.
Qed.

Lemma ascii_lower_padding l q r :
  List.Forall (fun c => isspace c = true) l ->
  List.Forall (fun c => isspace c = true) r ->
  ascii_lower (l ++ q ++ r) = l ++ ascii_lower q ++ r.
Proof.
  assert (forall w, List.Forall (fun c => isspace c = true) w -> ascii_lower w = w)
    as Hw.
  { induction 1 as [|c w Hc _ IH]; [reflexivity|].
    unfold ascii_lower in *. cbn [List.map]. rewrite IH. f_equal.
    destruct ((65 <=? c) && (c <=? 90)) eqn:E; [|reflexivity].
    apply andb_true_iff in E. destruct E as [Ea Eb].
    apply Z.leb_le in Ea, Eb. exfalso. unfold isspace in Hc.
    repeat (apply orb_true_iff in Hc; destruct Hc as [Hc|Hc]);
      repeat match goal with
             | H : _ && _ = true |- _ =>
                 apply andb_true_iff in H; destruct H
             | H : (_ <=? _) = true |- _ => apply Z.leb_le in H
             | H : (_ =? _) = true |- _ => apply Z.eqb_eq in H
             end; lia. }
  intros Hl Hr. unfold ascii_lower. rewrite !map_app.
  fold (ascii_lower l) (ascii_lower q) (ascii_lower r).
  now rewrite (Hw l Hl), (Hw r Hr).
Qed.

(** X3. Whitespace around a question does not change its fingerprint:
    when lower-casing leaves the surrounding whitespace where it is (as
    [str.lower] does, and [ascii_lower] provably), the padded question has
    the fingerprint of the bare one. *)
Theorem fingerprint_ignores_padding (lower : pystr -> pystr) (l q r : pystr) :
  List.Forall (fun c => isspace c = true) l ->
  List.Forall (fun c => isspace c = true) r ->
  lower (l ++ q ++ r) = l ++ lower q ++ r ->
  _hash_question lower (l ++ q ++ r) = _hash_question lower q.
Proof.
  intros Hl Hr Hlow. unfold _hash_question.
  now rewrite Hlow, (strip_padding l (lower q) r Hl Hr).
Qed.

Lemma fingerprint_ignores_padding_witness :
  List.Forall (fun c => isspace c = true) [32; 9]
  /\ List.Forall (fun c => isspace c = true) [10]
  /\ ascii_lower ([32; 9] ++ lit "What?" ++ [10])
     = [32; 9] ++ ascii_lower (lit "What?") ++ [10]
  /\ _hash_question ascii_lower ([32; 9] ++ lit "What?" ++ [10])
     = _hash_question ascii_lower (lit "What?").
Proof.
  assert (List.Forall (fun c => isspace c = true) [32; 9]) as Hl
    by (repeat constructor).
  assert (List.Forall (fun c => isspace c = true) [10]) as Hr
    by (repeat constructor).
  pose proof (ascii_lower_padding [32; 9] (lit "What?") [10] Hl Hr) as Hlow.
  split; [exact Hl|]. split; [exact Hr|]. split; [exact Hlow|].
  exact (fingerprint_ignores_padding ascii_lower _ _ _ Hl Hr Hlow).
Defined.

(** ** Answers: frame, deletion *)

Lemma first_update_first_other {A} (p p' : A -> bool) f rows :
  (forall r, p r = true -> p' r = false) ->
  (forall r, p' (f r) = p' r) ->
  first p' (update_first p f rows) = first p' rows.
Proof.
  intros Hd Hf. induction rows as [|r rows IH]; [reflexivity|]. cbn.
  destruct (p r) eqn:E; cbn.
  - now rewrite Hf, (Hd r E).
  - destruct (p' r); [reflexivity | exact IH].
Qed.

Lemma first_app_false {A} (p : A -> bool) rows x :
  p x = false -> first p (rows ++ [x]) = first p rows.
Proof.
  intros Hx. induction rows as [|r rows IH]; cbn; [now rewrite Hx|].
  destruct (p r); [reflexivity | exact IH].
Qed.

Lemma same_question_other url h url' h' r :
  (url', h') <> (url, h) ->
  same_question url h r = true -> same_question url' h' r = false.
Proof.
  intros Hne Hr. apply same_question_key in Hr.
  destruct (same_question url' h' r) eqn:E; [|reflexivity].
  apply same_question_key in E. congruence.
Qed.

(** X4. Writing an answer touches one (document, fingerprint) pair only:
    the lookup of any other pair gives what it gave before, and the
    letters and the cache entries are the ones before the call. *)
Theorem store_insight_frame (lower : pystr -> pystr) (db : DB) (now : Z)
    (url q a url' q' h h' : pystr) :
  _hash_question lower q = Ok h ->
  _hash_question lower q' = Ok h' ->
  (url', h') <> (url, h) ->
  let db' := snd (store_insight lower db now url q a) in
  get_cached_insight lower db' url' q' = get_cached_insight lower db url' q'
  /\ economic_letters db' = economic_letters db
  /\ cache_metadata db' = cache_metadata db.
Proof.
  intros Hh Hh' Hne db'. subst db'.
  destruct (store_insight_result lower db now url q a)
    as [-> | (h0 & Hh0 & ->)]; [now repeat split|].
  rewrite Hh in Hh0. injection Hh0 as <-. cbn [snd].
  split; [|split; reflexivity].
  rewrite !get_cached_insight_cases, Hh'. cbn [insights].
  destruct (bindable url'); [|reflexivity].
  do 2 f_equal. unfold upserted.
  destruct (first (same_question url h) (insights db)).
  - apply first_update_first_other; [|reflexivity].
    intros r. now apply same_question_other.
  - apply first_app_false.
    apply (same_question_other url h url' h' _ Hne).
    unfold same_question. cbn. now rewrite !pystr_eqb_refl.
Qed.

Lemma store_insight_frame_witness :
  _hash_question ascii_lower (lit "What?")
  = Ok (lit "8717cfca734e8987971f63b20eeb8024")
  /\ _hash_question ascii_lower (lit "Why?")
     = Ok (lit "fd1562614f1983c875db9c78c89e31f6")
  /\ (lit "a", lit "fd1562614f1983c875db9c78c89e31f6")
     <> (lit "a", lit "8717cfca734e8987971f63b20eeb8024")
  /\ get_cached_insight ascii_lower
       (snd (store_insight ascii_lower Examples.db_two_answers 30 (lit "a")
               (lit "What?") (lit "new")))
       (lit "a") (lit "Why?")
     = get_cached_insight ascii_lower Examples.db_two_answers (lit "a") (lit "Why?").
Proof.
  assert (_hash_question ascii_lower (lit "What?")
          = Ok (lit "8717cfca734e8987971f63b20eeb8024")) as H1
    by (vm_compute; reflexivity).
  assert (_hash_question ascii_lower (lit "Why?")
          = Ok (lit "fd1562614f1983c875db9c78c89e31f6")) as H2
    by (vm_compute; reflexivity).
  assert ((lit "a", lit "fd1562614f1983c875db9c78c89e31f6")
          <> (lit "a", lit "8717cfca734e8987971f63b20eeb8024")) as H3
    by (vm_compute; discriminate).
  split; [exact H1|]. split; [exact H2|]. split; [exact H3|].
  exact (proj1 (store_insight_frame ascii_lower Examples.db_two_answers 30
                  (lit "a") (lit "What?") (lit "new") (lit "a") (lit "Why?")
                  _ _ H1 H2 H3)).
Defined.

Lemma filter_all {A} (p : A -> bool) rows :
  (forall x, In x rows -> p x = true) -> List.filter p rows = rows.
Proof.
  induction rows as [|x rows IH]; [reflexivity|]. intros H. cbn.
  rewrite (H x (or_introl eq_refl)). f_equal. apply IH. intros y Hy.
  apply H. now right.
Qed.

Lemma delete_question_rows db question_id :
  insights (snd (delete_question db question_id))
  = List.filter (fun i => negb (Insight.id i =? question_id)) (insights db).
Proof.
  unfold delete_question.
  destruct (first _ _) as [i|] eqn:E; cbn [snd insights].
  - apply first_Some in E. destruct E as [_ E]. apply Z.eqb_eq in E.
    now rewrite E.
  - symmetry. apply filter_all. intros x Hx.
    now rewrite (first_None _ _ E x Hx).
Qed.

Lemma delete_question_found db question_id :
  fst (delete_question db question_id) = true
  <-> In question_id (List.map Insight.id (insights db)).
Proof.
  unfold delete_question. destruct (first _ _) as [i|] eqn:E; cbn [fst].
  - apply first_Some in E. destruct E as [Hin E]. apply Z.eqb_eq in E.
    split; [intros _|reflexivity]. rewrite <- E. now apply in_map.
  - split; [discriminate|]. intros Hin. apply in_map_iff in Hin.
    destruct Hin as (i & Hi & Hin). pose proof (first_None _ _ E i Hin) as Hn.
    cbn in Hn. apply Z.eqb_neq in Hn. contradiction.
Qed.

Lemma filter_one_out {A} (key : A -> Z) k rows :
  List.NoDup (List.map key rows) -> In k (List.map key rows) ->
  S (length (List.filter (fun r => negb (key r =? k)) rows)) = length rows.
Proof.
  induction rows as [|r rows IH]; [intros _ []|]. cbn [List.map List.filter length].
  intros Hnd Hin. inversion Hnd as [|? ? Hnotin Hnd']; subst.
  destruct (key r =? k) eqn:E; cbn [negb length].
  - apply Z.eqb_eq in E. subst k. f_equal. f_equal. apply filter_all.
    intros x Hx. apply negb_true_iff, Z.eqb_neq. intros Heq.
    apply Hnotin. rewrite <- Heq. now apply in_map.
  - f_equal. apply IH; [exact Hnd'|]. destruct Hin as [Hk|Hin]; [|exact Hin].
    apply Z.eqb_neq in E. contradiction.
Qed.

(** X5. [delete_question] reports True exactly when a row has the id;
    afterwards no row has it, the other answers are kept in their order,
    letters and cache entries are untouched, and deleting the same id
    again reports False. With unique ids a successful delete removes
    exactly one row. *)
Theorem delete_question_removes (db : DB) (question_id : Z) :
  let r := delete_question db question_id in
  (fst r = true <-> In question_id (List.map Insight.id (insights db)))
  /\ insights (snd r)
     = List.filter (fun i => negb (Insight.id i =? question_id)) (insights db)
  /\ ~ In question_id (List.map Insight.id (insights (snd r)))
  /\ economic_letters (snd r) = economic_letters db
  /\ cache_metadata (snd r) = cache_metadata db
  /\ delete_question (snd r) question_id = (false, snd r)
  /\ (insight_ids_unique db -> fst r = true ->
      S (length (insights (snd r))) = length (insights db)).
Proof.
  intros r. subst r.
  pose proof (delete_question_rows db question_id) as Hrows.
  assert (~ In question_id
            (List.map Insight.id (insights (snd (delete_question db question_id)))))
    as Hgone.
  { rewrite Hrows. intros Hin. apply in_map_iff in Hin.
    destruct Hin as (i & Hi & Hin). apply filter_In in Hin.
    destruct Hin as [_ Hin]. apply negb_true_iff, Z.eqb_neq in Hin.
    contradiction. }
  split; [apply delete_question_found|]. split; [exact Hrows|].
  split; [exact Hgone|].
  destruct (delete_question_tables db question_id) as (Hl & Hc & _).
  split; [exact Hl|]. split; [exact Hc|]. split.
  - pose proof (delete_question_found (snd (delete_question db question_id))
                  question_id) as Hf.
    destruct (delete_question (snd (delete_question db question_id)) question_id)
      as [b db''] eqn:E.
    destruct b.
    + exfalso. apply Hgone, Hf. reflexivity.
    + f_equal. unfold delete_question in E.
      destruct (first _ _); [discriminate|]. now injection E.
  - intros Hids Hfound. rewrite Hrows.
    apply filter_one_out; [exact Hids | now apply delete_question_found].
Qed.

Lemma first_filter_none {A} (p keep : A -> bool) rows :
  (forall r, In r rows -> p r = true -> keep r = false) ->
  first p (List.filter keep rows) = None.
Proof.
  intros H. destruct (first p (List.filter keep rows)) as [r|] eqn:E;
    [|reflexivity].
  apply first_Some in E. destruct E as [Hin Hp]. apply filter_In in Hin.
  destruct Hin as [Hin Hk]. rewrite (H r Hin Hp) in Hk. discriminate.
Qed.

(** X6. Deleting the answer that a lookup finds makes the lookup a miss:
    with one answer per pair, after [delete_question] on the id of the
    stored answer, [get_cached_insight] for that document (an identifier
    the driver can encode) and question returns None and the history of
    the letter no longer lists the id. *)
Theorem delete_then_lookup (lower : pystr -> pystr) (db : DB)
    (url q h : pystr) (i : Insight.t) :
  _hash_question lower q = Ok h ->
  bindable url = true ->
  answers_unique db ->
  first (same_question url h) (insights db) = Some i ->
  let db' := snd (delete_question db (Insight.id i)) in
  fst (delete_question db (Insight.id i)) = true
  /\ get_cached_insight lower db' url q = Ok None
  /\ ~ In (Insight.id i) (List.map hi_id (get_question_history db' url)).
Proof.
  intros Hh Hbu Huniq Hfirst db'. subst db'.
  pose proof (first_Some _ _ _ Hfirst) as [Hin Hp].
  split; [apply delete_question_found; now apply in_map|].
  split.
  - rewrite (get_cached_insight_first _ _ _ _ _ Hh Hbu), delete_question_rows.
    rewrite first_filter_none; [reflexivity|].
    intros r Hr Hpr.
    assert (List.filter (same_question url h) (insights db) = [i]) as Hone
      by (apply (filter_unique_key answer_key _ (url, h));
          [apply same_question_key | exact Huniq | exact Hin | exact Hp]).
    assert (In r [i]) as Hri by (rewrite <- Hone; now apply filter_In).
    destruct Hri as [<-|[]]. now rewrite Z.eqb_refl.
  - unfold get_question_history. rewrite map_map. cbn [hi_id].
    intros Hid. apply in_map_iff in Hid. destruct Hid as (r & Hr & Hrin).
    eapply Permutation_in in Hrin; [|apply order_by_desc_perm].
    apply index_scan_In, filter_In in Hrin. destruct Hrin as [Hrin _].
    rewrite delete_question_rows in Hrin. apply filter_In in Hrin.
    destruct Hrin as [_ Hne]. apply negb_true_iff, Z.eqb_neq in Hne.
    contradiction.
Qed.

Lemma delete_then_lookup_witness :
  _hash_question ascii_lower (lit "what?")
  = Ok (lit "8717cfca734e8987971f63b20eeb8024")
  /\ answers_unique Examples.db_two_answers
  /\ first (same_question (lit "a") (lit "8717cfca734e8987971f63b20eeb8024"))
       (insights Examples.db_two_answers)
     = Some (Insight.mk 1 (lit "a") (lit "What?")
               (lit "8717cfca734e8987971f63b20eeb8024") (lit "old") 10)
  /\ get_cached_insight ascii_lower
       (snd (delete_question Examples.db_two_answers 1)) (lit "a") (lit "what?")
     = Ok None.
Proof.
  assert (_hash_question ascii_lower (lit "what?")
          = Ok (lit "8717cfca734e8987971f63b20eeb8024")) as Hh
    by (vm_compute; reflexivity).
  assert (answers_unique Examples.db_two_answers) as Hu.
  { unfold answers_unique. cbn [Examples.db_two_answers insights List.map].
    constructor; [intros [H|[]]; vm_compute in H; discriminate H|].
    constructor; [intros []|constructor]. }
  assert (first (same_question (lit "a") (lit "8717cfca734e8987971f63b20eeb8024"))
            (insights Examples.db_two_answers)
          = Some (Insight.mk 1 (lit "a") (lit "What?")
                    (lit "8717cfca734e8987971f63b20eeb8024") (lit "old") 10))
    as Hf by (vm_compute; reflexivity).
  split; [exact Hh|]. split; [exact Hu|]. split; [exact Hf|].
  exact (proj1 (proj2 (delete_then_lookup ascii_lower Examples.db_two_answers
                         (lit "a") (lit "what?") _ _ Hh eq_refl Hu Hf))).
Defined.

(** X7. The delete route never answers 404: the [HTTPException] it raises
    for a missing id is caught by its own [except Exception] and leaves as
    a 500. The status is 200 exactly when a row has the id, 500
    otherwise, and then the tables are unchanged. *)
Theorem delete_endpoint_status (str_http : Z -> pystr -> pystr) (db : DB)
    (question_id : Z) :
  let r := delete_question_endpoint str_http db question_id in
  status (snd r) <> 404
  /\ (status (snd r) = 200 <-> In question_id (List.map Insight.id (insights db)))
  /\ (status (snd r) = 500 <-> ~ In question_id (List.map Insight.id (insights db)))
  /\ (status (snd r) = 500 -> fst r = db).
Proof.
  intros r. subst r. unfold delete_question_endpoint.
  pose proof (delete_question_found db question_id) as Hf.
  assert (fst (delete_question db question_id) = false ->
          snd (delete_question db question_id) = db) as Hsame.
  { unfold delete_question. now destruct (first _ _). }
  destruct (delete_question db question_id) as [[|] db'];
    cbn [fst snd status] in *.
  - repeat split; try discriminate; intuition congruence.
  - repeat split; try discriminate; try (intros; now apply Hsame);
      intuition congruence.
Qed.

(** ** The answer orchestrator *)

Lemma nonempty_true {A} (l : list A) : nonempty l = true <-> l <> [].
Proof. destruct l; cbn; intuition congruence. Qed.

(** X8. Cache-aside for answers: when a question about a letter has no
    stored answer and the model returns a non-empty text, and the
    identifier of the letter, the question and the text have a UTF-8
    encoding, that text is returned and stored; from then on every call
    for that letter and any question of the same fingerprint returns the
    stored text and leaves the tables alone, whatever the model would
    answer now and whatever content is passed. *)
Theorem generated_answer_is_reused (lower : pystr -> pystr)
    (invoke : pystr -> pystr + pystr) (db : DB) (now : Z)
    (content q url h text : pystr) :
  url <> [] -> text <> [] ->
  bindable url = true -> bindable q = true -> bindable text = true ->
  _hash_question lower q = Ok h ->
  first (same_question url h) (insights db) = None ->
  invoke (prompt content q) = inr text ->
  exists db1,
    get_llm_insight lower invoke db now content q url = Ok (db1, text)
    /\ forall invoke' now' content' q',
         _hash_question lower q' = Ok h ->
         get_llm_insight lower invoke' db1 now' content' q' url = Ok (db1, text).
Proof.
  intros Hurl Htext Hbu Hbq Hbt Hh Hmiss Hllm.
  apply nonempty_true in Hurl, Htext.
  exists (snd (store_insight lower db now url q text)). split.
  - unfold get_llm_insight. rewrite Hurl.
    rewrite (get_cached_insight_first _ _ _ _ _ Hh Hbu), Hmiss.
    cbn [option_map mbind result_bind]. now rewrite Hllm, Htext.
  - intros invoke' now' content' q' Hh'. unfold get_llm_insight. rewrite Hurl.
    rewrite (get_cached_insight_first _ _ _ _ _ Hh' Hbu).
    rewrite (store_insight_ok lower db now url q text h Hh Hbu Hbt (fun _ => Hbq)).
    cbn [snd insights].
    destruct (upserted_first now url q h text (insights db)) as (i & -> & Hi & _).
    cbn [option_map mbind result_bind]. rewrite Hi.
    destruct text; [discriminate | reflexivity].
Qed.

Lemma generated_answer_is_reused_witness :
  lit "a" <> [] /\ lit "new" <> []
  /\ bindable (lit "a") = true /\ bindable (lit "What?") = true
  /\ bindable (lit "new") = true
  /\ _hash_question ascii_lower (lit "What?")
     = Ok (lit "8717cfca734e8987971f63b20eeb8024")
  /\ first (same_question (lit "a") (lit "8717cfca734e8987971f63b20eeb8024"))
       (insights empty_db) = None
  /\ exists db1,
       get_llm_insight ascii_lower (fun _ => inr (lit "new")) empty_db 5
         (lit "Body") (lit "What?") (lit "a") = Ok (db1, lit "new")
       /\ get_llm_insight ascii_lower (fun _ => inl (lit "down")) db1 9
            (lit "Body") (lit "  WHAT? ") (lit "a") = Ok (db1, lit "new").
Proof.
  assert (lit "a" <> []) as H1 by (vm_compute; discriminate).
  assert (lit "new" <> []) as H2 by (vm_compute; discriminate).
  assert (_hash_question ascii_lower (lit "What?")
          = Ok (lit "8717cfca734e8987971f63b20eeb8024")) as H3
    by (vm_compute; reflexivity).
  assert (first (same_question (lit "a") (lit "8717cfca734e8987971f63b20eeb8024"))
            (insights empty_db) = None) as H4 by reflexivity.
  assert (bindable (lit "a") = true) as B1 by (vm_compute; reflexivity).
  assert (bindable (lit "What?") = true) as B2 by (vm_compute; reflexivity).
  assert (bindable (lit "new") = true) as B3 by (vm_compute; reflexivity).
  split; [exact H1|]. split; [exact H2|].
  split; [exact B1|]. split; [exact B2|]. split; [exact B3|].
  split; [exact H3|]. split; [exact H4|].
  destruct (generated_answer_is_reused ascii_lower (fun _ => inr (lit "new"))
              empty_db 5 (lit "Body") (lit "What?") (lit "a") _ (lit "new")
              H1 H2 B1 B2 B3 H3 H4 eq_refl) as (db1 & Hfirst & Hnext).
  exists db1. split; [exact Hfirst|].
  apply Hnext. vm_compute. reflexivity.
Defined.

Lemma get_llm_insight_frame lower invoke db now content q url db' t :
  get_llm_insight lower invoke db now content q url = Ok (db', t) ->
  economic_letters db' = economic_letters db
  /\ cache_metadata db' = cache_metadata db
  /\ (url = [] -> db' = db)
  /\ (forall e, invoke (prompt content q) = inl e -> db' = db).
Proof.
  unfold get_llm_insight.
  destruct (if nonempty url then _ else _) as [cached|e] eqn:Ec; [|discriminate].
  cbn [mbind result_bind].
  assert (forall db0 t0,
            match invoke (prompt content q) with
            | inr insight_text =>
                Ok (if nonempty url && nonempty insight_text
                    then snd (store_insight lower db now url q insight_text)
                    else db, insight_text)
            | inl e => Ok (db, lit "Error generating insight: " ++ e)
            end = Ok (db0, t0) ->
            economic_letters db0 = economic_letters db
            /\ cache_metadata db0 = cache_metadata db
            /\ (url = [] -> db0 = db)
            /\ (forall e, invoke (prompt content q) = inl e -> db0 = db)) as Hgen.
  { intros db0 t0. destruct (invoke (prompt content q)) as [e|text].
    - intros [= <- _]. now repeat split.
    - intros [= <- _]. destruct (nonempty url && nonempty text) eqn:E.
      + destruct (store_insight_result lower db now url q text)
          as [-> | (h & _ & ->)]; cbn [snd economic_letters cache_metadata];
          (repeat split; try discriminate);
          intros ->; discriminate.
      + repeat split; discriminate. }
  destruct cached as [[|c cached]|]; try apply Hgen.
  intros [= <- _]. now repeat split.
Qed.

Lemma get_llm_insight_raises lower invoke db now content q url :
  (exists e, get_llm_insight lower invoke db now content q url = Raise e)
  <-> url <> []
      /\ (List.Exists unencodable (strip (lower q))
          \/ List.Exists unencodable url).
Proof.
  unfold get_llm_insight. destruct url as [|u url]; cbn [nonempty].
  - cbn [mbind result_bind]. split.
    + intros [e He]. destruct (invoke _); discriminate He.
    + intros [H _]. congruence.
  - rewrite get_cached_insight_cases.
    destruct (hash_question_cases lower q) as [(h & -> & Hn) | [-> Hex]].
    + destruct (bindable (u :: url)) eqn:Hu; cbn [mbind result_bind].
      * apply bindable_true in Hu.
        split; [|intros [_ [H|H]]; contradiction].
        intros [e He]. exfalso.
        destruct (first _ _) as [i|]; cbn [option_map] in He.
        -- destruct (Insight.insight i); [|discriminate He].
           destruct (invoke _); discriminate He.
        -- destruct (invoke _); discriminate He.
      * apply bindable_false in Hu.
        split; [intros _; split; [discriminate | now right] | eauto].
    + cbn [mbind result_bind].
      split; [intros _; split; [discriminate | now left] | eauto].
Qed.

(** X9. [POST /api/insights] answers 500 exactly when a letter URL is
    given and either the question cannot be fingerprinted or the URL
    cannot be bound by the lookup (a lone surrogate in the normalised
    question or in the URL), and 200 otherwise, a failure of the model
    included. The route never changes the letters or the cache entries,
    and it writes nothing at all when no URL is given or when the model
    fails. *)
Theorem get_insights_outcome (lower : pystr -> pystr)
    (invoke : pystr -> pystr + pystr) (str_exn : exn -> pystr)
    (db : DB) (now : Z) (content q url : pystr) :
  let r := get_insights lower invoke str_exn db now content q url in
  (status (snd r) = 500
   <-> url <> []
       /\ (List.Exists unencodable (strip (lower q))
           \/ List.Exists unencodable url))
  /\ (status (snd r) = 200 \/ status (snd r) = 500)
  /\ economic_letters (fst r) = economic_letters db
  /\ cache_metadata (fst r) = cache_metadata db
  /\ (url = [] -> fst r = db)
  /\ (forall e, invoke (prompt content q) = inl e -> fst r = db).
Proof.
  intros r. subst r. unfold get_insights.
  pose proof (get_llm_insight_raises lower invoke db now content q url) as Hr.
  pose proof (get_llm_insight_frame lower invoke db now content q url) as Hf.
  destruct (get_llm_insight lower invoke db now content q url) as [[db' t]|e].
  - destruct (Hf db' t eq_refl) as (Hl & Hc & Hu & He).
    cbn [fst snd status]. repeat split; try assumption; try discriminate.
    + intros H. apply Hr in H. destruct H as [e H]. discriminate.
    + now left.
  - cbn [fst snd status]. repeat split; try reflexivity.
    + apply Hr. eauto.
    + apply Hr. eauto.
    + now right.
Qed.

(** ** Pages of letters *)

Lemma get_letters_from_cache_page db now limit offset :
  is_cache_valid db now (lit "letters_list") = true ->
  get_letters_from_cache db now limit offset
  = (List.map to_dict (sql_limit limit (sql_offset offset (newest_first db))),
     offset + limit <? Z.of_nat (length (newest_first db))).
Proof.
  intros H. rewrite (get_letters_from_cache_hit _ _ _ _ H).
  unfold newest_first. now rewrite order_by_desc_length.
Qed.


Lemma In_firstn {A} n (l : list A) x : In x (firstn n l) -> In x l.
Proof.
  revert l. induction n as [|n IH]; intros l; [intros []|].
  destruct l as [|y l]; cbn; [easy|]. intros [->|H]; [now left|].
  right. now apply IH.
Qed.

Lemma sorted_firstn {A} (R : A -> A -> Prop) n l :
  StronglySorted R l -> StronglySorted R (firstn n l).
Proof.
  intros H. revert n. induction H as [|x l Hs IH Hall]; intros n.
  - rewrite firstn_nil. constructor.
  - destruct n as [|n]; cbn; constructor; [apply IH|].
    apply List.Forall_forall. intros y Hy. rewrite List.Forall_forall in Hall.
    apply Hall. eapply In_firstn, Hy.
Qed.

Lemma sorted_skipn {A} (R : A -> A -> Prop) n l :
  StronglySorted R l -> StronglySorted R (skipn n l).
Proof.
  intros H. revert n. induction H as [|x l Hs IH Hall]; intros n.
  - rewrite skipn_nil. constructor.
  - destruct n as [|n]; cbn; [now constructor | apply IH].
Qed.

Lemma In_skipn {A} n (l : list A) x : In x (skipn n l) -> In x l.
Proof.
  revert l. induction n as [|n IH]; intros l; [easy|].
  destruct l as [|y l]; cbn; [easy|]. intros H. right. now apply IH.
Qed.

(** X10. What [get_letters_from_cache] returns is always made of stored
    letters: the dictionaries of rows of the table, newest first by
    [scraped_at], no more of them than the table holds. *)
Theorem page_of_stored_letters (db : DB) (now limit offset : Z) :
  exists rows,
    fst (get_letters_from_cache db now limit offset) = List.map to_dict rows
    /\ (forall r, In r rows -> In r (economic_letters db))
    /\ StronglySorted (desc EconomicLetter.scraped_at) rows
    /\ (length rows <= length (economic_letters db))%nat.
Proof.
  destruct (is_cache_valid db now (lit "letters_list")) eqn:E.
  - rewrite (get_letters_from_cache_page _ _ _ _ E). cbn [fst].
    exists (sql_limit limit (sql_offset offset (newest_first db))).
    pose proof (order_by_desc_sorted EconomicLetter.scraped_at
                  (economic_letters db)) as Hs.
    pose proof (order_by_desc_perm EconomicLetter.scraped_at
                  (economic_letters db)) as Hp.
    fold (newest_first db) in Hs, Hp.
    assert (forall r, In r (sql_limit limit (sql_offset offset (newest_first db)))
                      -> In r (newest_first db)) as Hin.
    { intros r. unfold sql_limit, sql_offset.
      destruct (limit <? 0); intros Hr;
        [|apply In_firstn in Hr]; eapply In_skipn, Hr. }
    split; [reflexivity|]. split.
    { intros r Hr. eapply Permutation_in; [exact Hp | now apply Hin]. }
    split.
    { unfold sql_limit, sql_offset. destruct (limit <? 0);
        [|apply sorted_firstn]; now apply sorted_skipn. }
    rewrite <- (Permutation_length Hp). unfold sql_limit, sql_offset.
    destruct (limit <? 0);
      [|rewrite length_firstn]; rewrite length_skipn; lia.
  - rewrite (get_letters_from_cache_miss _ _ _ _ E). exists [].
    cbn. repeat split; [intros r [] | constructor | lia].
Qed.







(** ** What a store keeps *)





Example store_stamps_each_row :
  List.map EconomicLetter.scraped_at
    (economic_letters
       (snd (store_letters Examples.db_one_letter 5
               [Examples.d_a2;
                letter_dict (lit "B") (lit "b") (lit "2023") (lit "S") (lit "C");
                letter_dict (lit "D") (lit "d") (lit "2022") (lit "S") (lit "C")])))
  = [0; 5; 6].
Proof. vm_compute. reflexivity. Qed.

Lemma same_key_entry {A K} (key : A -> K) (rows : list A) a b :
  List.NoDup (List.map key rows) -> In a rows -> In b rows -> key a = key b ->
  a = b.
Proof.
  induction rows as [|r rows IH]; [intros _ []|]. cbn [List.map].
  intros Hnd Ha Hb Hk. inversion Hnd as [|? ? Hnotin Hnd']; subst.
  destruct Ha as [->|Ha], Hb as [->|Hb]; [reflexivity | | |now apply IH].
  - exfalso. apply Hnotin. rewrite Hk. now apply in_map.
  - exfalso. apply Hnotin. rewrite <- Hk. now apply in_map.
Qed.

Lemma refreshed_keys now count rows :
  List.NoDup (List.map CacheMetadata.cache_key rows) ->
  List.NoDup (List.map CacheMetadata.cache_key (refreshed now count rows)).
Proof.
  intros Hnd. unfold refreshed.
  destruct (first _ _) eqn:E; [now rewrite update_first_map|].
  rewrite map_app. apply List.NoDup_app; [exact Hnd | repeat constructor; intros []|].
  intros k Hin [<-|[]]. apply in_map_iff in Hin. destruct Hin as (e & Hk & He).
  pose proof (first_None _ _ E e He) as Hn. unfold same_key in Hn.
  apply not_true_iff_false in Hn. apply Hn, pystr_eqb_eq. exact Hk.
Qed.

Lemma refreshed_expiry now count rows e :
  List.NoDup (List.map CacheMetadata.cache_key rows) ->
  In e (refreshed now count rows) ->
  CacheMetadata.cache_key e = lit "letters_list" ->
  CacheMetadata.expires_at e = now + timedelta_hours CACHE_EXPIRY_HOURS
  /\ CacheMetadata.is_valid e = true.
Proof.
  intros Hnd Hin Hk.
  pose proof (refreshed_keys now count rows Hnd) as Hnd'.
  assert (exists e', In e' (refreshed now count rows)
                     /\ CacheMetadata.cache_key e' = lit "letters_list"
                     /\ CacheMetadata.expires_at e'
                        = now + timedelta_hours CACHE_EXPIRY_HOURS
                     /\ CacheMetadata.is_valid e' = true) as (e' & Hin' & Hk' & He').
  { unfold refreshed. destruct (first _ rows) as [e0|] eqn:E.
    - exists (refresh_entry now e0). split; [now apply update_first_found|].
      apply first_Some in E. destruct E as [_ E]. apply pystr_eqb_eq in E.
      now repeat split.
    - eexists. split; [apply in_app_iff; right; now left|]. now repeat split. }
  rewrite (same_key_entry _ _ e e' Hnd' Hin Hin'); [exact He' | congruence].
Qed.

(** X15. The time to live is exactly 24 hours: after a successful
    [store_letters] at [now] (cache keys being unique), the "letters_list"
    entry is valid at a time [t] if and only if [t] is before [now] plus
    24 hours. *)
Theorem letters_list_expiry (db : DB) (now : Z) (ds : list Dict) (db' : DB)
    (t : Z) :
  store_letters db now ds = (true, db') ->
  cache_keys_unique db ->
  (is_cache_valid db' t (lit "letters_list") = true
   <-> t < now + 24 * 3600 * 1000000).
Proof.
  intros H Hkeys. change (24 * 3600 * 1000000)
    with (timedelta_hours CACHE_EXPIRY_HOURS).
  split; [|now apply (store_letters_valid db now ds)].
  intros Hv. apply is_cache_valid_iff in Hv.
  destruct Hv as (e & Hin & Hk & _ & Hlt).
  destruct (store_letters_true _ _ _ _ H) as (ns & Hb & Hst & Hnd).
  destruct (store_letters_ok db now ds ns Hb Hst Hnd) as (upd & added & Heq & _).
  rewrite Heq in H. injection H as <-. cbn [cache_metadata] in Hin.
  destruct (refreshed_expiry now (length ds) _ e Hkeys Hin Hk) as [He _].
  now rewrite <- He.
Qed.

Lemma letters_list_expiry_witness :
  store_letters empty_db 0 [Examples.d_a1] = (true, Examples.db_one_letter)
  /\ cache_keys_unique empty_db
  /\ (is_cache_valid Examples.db_one_letter 86399999999 (lit "letters_list") = true
      <-> 86399999999 < 0 + 24 * 3600 * 1000000).
Proof.
  assert (store_letters empty_db 0 [Examples.d_a1] = (true, Examples.db_one_letter))
    as H by (vm_compute; reflexivity).
  assert (cache_keys_unique empty_db) as Hk by constructor.
  split; [exact H|]. split; [exact Hk|].
  exact (letters_list_expiry empty_db 0 _ _ 86399999999 H Hk).
Defined.

(** X16. An empty batch is stored with success: it adds no letter and
    changes none, yet it refreshes the "letters_list" entry, which is
    valid for the next 24 hours even over an empty table. *)
Theorem store_nothing_refreshes (db : DB) (now : Z) :
  store_letters db now []
  = (true, mkDB (economic_letters db) (insights db)
             (refreshed now 0 (cache_metadata db)))
  /\ forall t, t < now + timedelta_hours CACHE_EXPIRY_HOURS ->
               is_cache_valid (snd (store_letters db now [])) t
                 (lit "letters_list") = true.
Proof.
  assert (store_letters db now []
          = (true, mkDB (economic_letters db) (insights db)
                     (refreshed now 0 (cache_metadata db)))) as H.
  { unfold store_letters. cbn [for_each mbind result_bind length].
    destruct (touch_letters_list_commit now 0 (get_db db) eq_refl)
      as (Hl2 & Hi2 & Hnl2 & Hni2 & Has2 & Hcache).
    unfold commit. rewrite Has2. cbn [get_db assigned bind_all mbind result_bind].
    rewrite Hl2, Hi2, Hnl2, Hni2, Hcache. reflexivity. }
  split; [exact H|]. intros t Ht.
  eapply store_letters_valid; [|exact Ht]. rewrite H. reflexivity.
Qed.

(** ** The fetch orchestrator: hits, limits, refresh *)




Lemma scrape_miss_result digit content db now now' limit links :
  0 <= limit ->
  fst (get_letters_from_cache db now limit 0) = [] ->
  scrape_economic_letters digit content db now now' limit (Some links)
  = (let fetched :=
       fold_left (scrape_link digit content)
         (firstn (Z.to_nat (Z.max limit 20)) links) [] in
     (if nonempty fetched then snd (store_letters db now' fetched) else db,
      firstn (Z.to_nat limit) fetched)).
Proof.
  intros Hlimit Hmiss. unfold scrape_economic_letters.
  destruct (get_letters_from_cache db now limit 0) as [cached hm].
  cbn in Hmiss. subst cached. cbn [nonempty].
  rewrite (slice_to_nonneg links (Z.max limit 20)) by lia.
  cbn zeta. now rewrite slice_to_nonneg.
Qed.










Lemma zero_limit_page db t : fst (get_letters_from_cache db t 0 0) = [].
Proof.
  destruct (is_cache_valid db t (lit "letters_list")) eqn:E.
  - now rewrite (get_letters_from_cache_page _ _ _ _ E).
  - now rewrite (get_letters_from_cache_miss _ _ _ _ E).
Qed.

(** X19. A limit of 0 never uses the cache: whatever is stored and
    however fresh, [scrape_economic_letters] goes to the listing page,
    stores what the first 20 links give, and returns the empty list; when
    the page cannot be fetched the tables are unchanged. *)
Theorem zero_limit_always_scrapes (digit : Z -> bool) (content : pystr -> pystr)
    (db : DB) (now now' : Z) :
  (forall links,
     scrape_economic_letters digit content db now now' 0 (Some links)
     = (let fetched :=
          fold_left (scrape_link digit content) (firstn 20 links) [] in
        if nonempty fetched then snd (store_letters db now' fetched) else db,
        []))
  /\ scrape_economic_letters digit content db now now' 0 None = (db, []).
Proof.
  split.
  - intros links.
    now rewrite (scrape_miss_result digit content db now now' 0 links
                   ltac:(lia) (zero_limit_page db now)).
  - unfold scrape_economic_letters.
    pose proof (zero_limit_page db now) as H.
    pose proof (zero_limit_page db now') as H'.
    destruct (get_letters_from_cache db now 0 0) as [cached hm].
    destruct (get_letters_from_cache db now' 0 0) as [fallback hm'].
    cbn in H, H'. now subst.
Qed.

(** X20. A refresh always goes to the listing page, since it invalidates
    "letters_list" first. When the page can be fetched, the count it
    reports is the number of items built from the first 20 links; when it
    cannot, the count is 0, the letters stay stored, and the cache stays
    unusable at every later time, so the listing is a miss until a scrape
    succeeds. *)
Theorem refresh_bypasses_cache (digit : Z -> bool) (content : pystr -> pystr)
    (db : DB) (now now' : Z) :
  letters_list_tagged db ->
  (forall links,
     let fetched := fold_left (scrape_link digit content) (firstn 20 links) [] in
     let r := refresh_letters digit content db now now' (Some links) in
     fst r = (if nonempty fetched
              then snd (store_letters (clear_cache db (Some (lit "letters_list")))
                          now' fetched)
              else clear_cache db (Some (lit "letters_list")))
     /\ exists message,
          snd r = Success (mkRefreshResponse message (length fetched)))
  /\ (let r := refresh_letters digit content db now now' None in
      (exists message, snd r = Success (mkRefreshResponse message 0))
      /\ economic_letters (fst r) = economic_letters db
      /\ insights (fst r) = insights db
      /\ forall t limit offset,
           get_letters_from_cache (fst r) t limit offset = ([], false)).
Proof.
  intros Htag.
  assert (forall t limit offset,
            get_letters_from_cache (clear_cache db (Some (lit "letters_list")))
              t limit offset = ([], false)) as Hmiss.
  { intros t limit offset. apply get_letters_from_cache_miss.
    now apply letters_list_invalidated. }
  split.
  - intros links fetched r. subst r. unfold refresh_letters.
    rewrite (scrape_miss_result digit content _ now now' 20 links);
      [|lia | now rewrite Hmiss].
    cbn zeta. change (Z.to_nat (Z.max 20 20)) with 20%nat.
    change (Z.to_nat 20) with 20%nat. fold fetched. cbn [fst snd].
    split; [reflexivity|].
    assert (length (firstn 20 fetched) = length fetched) as Hlen.
    { apply f_equal, firstn_all2.
      pose proof (fetched_length digit content (firstn 20 links) []) as Hlen.
      fold fetched in Hlen. rewrite length_firstn in Hlen.
      cbn [length] in Hlen. lia. }
    rewrite Hlen. eauto.
  - unfold refresh_letters, scrape_economic_letters. rewrite !Hmiss.
    cbn [nonempty fst snd length]. split; [eauto|]. split; [reflexivity|].
    split; [reflexivity | exact Hmiss].
Qed.

Lemma refresh_bypasses_cache_witness :
  letters_list_tagged Examples.db_one_letter
  /\ get_letters_from_cache Examples.db_one_letter 1 10 0
     = ([Examples.d_a1], false)
  /\ get_letters_from_cache
       (fst (refresh_letters Examples.ascii_digit Examples.site
               Examples.db_one_letter 1 2 None)) 3 10 0
     = ([], false).
Proof.
  assert (letters_list_tagged Examples.db_one_letter) as H
    by (intros e [<-|[]] _; reflexivity).
  split; [exact H|]. split; [vm_compute; reflexivity|].
  destruct (refresh_bypasses_cache Examples.ascii_digit Examples.site
              Examples.db_one_letter 1 2 H) as (_ & _ & _ & _ & Hmiss).
  exact (Hmiss 3 10 0).
Defined.





(** ** Invalidation and the reachable states *)

Lemma clear_cache_tables db category :
  clear_cache db category
  = mkDB (economic_letters db) (insights db)
      (List.map (invalidate_nonempty category) (cache_metadata db)).
Proof.
  rewrite <- clear_cache_entries. reflexivity.
Qed.

Lemma invalidate_nonempty_twice category e :
  invalidate_nonempty category (invalidate_nonempty category e)
  = invalidate_nonempty category e.
Proof.
  unfold invalidate_nonempty. destruct category as [[|c0 c]|]; try reflexivity.
  repeat case_bool_decide; try reflexivity. cbn in *. contradiction.
Qed.

(** X22. Clearing with no category leaves no valid entry: afterwards no
    key is valid at any time and the statistics count 0 valid caches,
    while the counts of letters and answers and every expiry timestamp
    are unchanged. Clearing twice with the same category is clearing
    once. *)
Theorem clear_all_invalidates (db : DB) :
  (forall now key, is_cache_valid (clear_cache db None) now key = false)
  /\ (forall now,
        get_cache_stats (clear_cache db None) now
        = mkCacheStats (total_letters (get_cache_stats db now))
            (total_insights (get_cache_stats db now)) 0 (lit "N/A"))
  /\ (forall category,
        List.map CacheMetadata.expires_at (cache_metadata (clear_cache db category))
        = List.map CacheMetadata.expires_at (cache_metadata db))
  /\ (forall category,
        clear_cache (clear_cache db category) category = clear_cache db category).
Proof.
  split; [|split; [|split]].
  - intros now key. unfold is_cache_valid. rewrite clear_cache_entries.
    rewrite first_map_none; [reflexivity|]. intros e _. cbn.
    unfold fresh. cbn. now rewrite !andb_false_r.
  - intros now. unfold get_cache_stats. rewrite clear_cache_entries.
    cbn [economic_letters insights clear_cache total_letters total_insights].
    f_equal. rewrite filter_nothing; [reflexivity|]. intros e He.
    apply in_map_iff in He. destruct He as (e0 & <- & _). reflexivity.
  - intros category. rewrite clear_cache_entries, map_map. apply map_ext.
    intros e. unfold invalidate_nonempty.
    destruct category as [[|c0 c]|]; try reflexivity. now case_bool_decide.
  - intros category. rewrite !clear_cache_tables. cbn [economic_letters insights cache_metadata].
    f_equal. rewrite map_map. apply map_ext. intros e.
    apply invalidate_nonempty_twice.
Qed.

Lemma next_id_bound {A} (id : A -> Z) rows x :
  In x (List.map id rows) -> x < next_id id rows.
Proof.
  unfold next_id. induction rows as [|r rows IH]; [intros []|].
  cbn [List.map fold_right]. intros [<-|Hin]; [lia|].
  specialize (IH Hin). lia.
Qed.

Lemma upserted_ids now url q h a rows :
  List.NoDup (List.map Insight.id rows) ->
  List.NoDup (List.map Insight.id (upserted now url q h a rows)).
Proof.
  intros Hnd. unfold upserted. destruct (first _ rows);
    [now rewrite update_first_map|].
  rewrite map_app. apply List.NoDup_app; [exact Hnd | repeat constructor; intros []|].
  intros x Hin [<-|[]]. apply next_id_bound in Hin. cbn in Hin. lia.
Qed.

(** The cache table holds nothing, or the one "letters_list" entry. *)
Lemma refreshed_single now count rows :
  (rows = [] \/ exists e, rows = [e]
                          /\ CacheMetadata.cache_key e = lit "letters_list") ->
  exists e, refreshed now count rows = [e]
            /\ CacheMetadata.cache_key e = lit "letters_list".
Proof.
  unfold refreshed, same_key. intros [-> | (e & -> & Hk)]; cbn.
  - eauto.
  - rewrite Hk, pystr_eqb_refl. cbn. eauto.
Qed.

(** X23. In every state the program reaches from the empty database the
    cache table holds at most one entry, the one of key "letters_list"
    (so the statistics never count more than one valid cache), cache keys
    are unique and so are the ids of the answers. *)
Theorem reachable_tables (lower : pystr -> pystr) (db : DB) :
  reachable lower db ->
  (cache_metadata db = []
   \/ exists e, cache_metadata db = [e]
                /\ CacheMetadata.cache_key e = lit "letters_list")
  /\ cache_keys_unique db
  /\ insight_ids_unique db
  /\ forall now, (valid_caches (get_cache_stats db now) <= 1)%nat.
Proof.
  intros Hreach.
  assert ((cache_metadata db = []
           \/ exists e, cache_metadata db = [e]
                        /\ CacheMetadata.cache_key e = lit "letters_list")
          /\ insight_ids_unique db) as [Hc Hi].
  { induction Hreach as [| db now ds _ (IHc & IHi)
                         | db now url q a _ (IHc & IHi)
                         | db question_id _ (IHc & IHi)
                         | db category _ (IHc & IHi)].
    - split; [now left | constructor].
    - destruct (store_letters_result db now ds) as [-> | [db' H]];
        [now split|].
      unfold insight_ids_unique. rewrite store_letters_insights.
      split; [|exact IHi]. rewrite H. cbn [snd].
      destruct (store_letters_true _ _ _ _ H) as (ns & Hb & Hst & Hnd).
      destruct (store_letters_ok db now ds ns Hb Hst Hnd) as (upd & added & Heq & _).
      rewrite Heq in H. injection H as <-. cbn [cache_metadata]. right.
      now apply refreshed_single.
    - destruct (store_insight_result lower db now url q a) as [-> | (h & _ & ->)];
        [now split|].
      cbn [snd]. split; [exact IHc|]. unfold insight_ids_unique.
      cbn [insights]. now apply upserted_ids.
    - destruct (delete_question_tables db question_id) as (_ & Hcm & keep & Hins).
      unfold insight_ids_unique. rewrite Hcm, Hins.
      split; [exact IHc | now apply NoDup_map_filter].
    - split; [|exact IHi]. rewrite clear_cache_entries.
      destruct IHc as [-> | (e & -> & Hk)]; [now left|]. right.
      eexists. split; [reflexivity|]. rewrite <- Hk.
      unfold invalidate_nonempty. destruct category as [[|c0 c]|]; try reflexivity.
      now case_bool_decide. }
  split; [exact Hc|]. split; [|split; [exact Hi|]].
  - unfold cache_keys_unique.
    destruct Hc as [-> | (e & -> & _)]; repeat constructor. intros [].
  - intros now. unfold get_cache_stats. cbn [valid_caches].
    destruct Hc as [-> | (e & -> & _)]; cbn; [lia|].
    destruct (_ && _); cbn; lia.
Qed.

Lemma reachable_tables_witness :
  reachable ascii_lower Examples.db_one_letter
  /\ (valid_caches (get_cache_stats Examples.db_one_letter 1) <= 1)%nat.
Proof.
  assert (reachable ascii_lower Examples.db_one_letter) as H
    by (apply reach_store_letters, reach_init).
  split; [exact H|].
  destruct (reachable_tables ascii_lower Examples.db_one_letter H)
    as (_ & _ & _ & Hv).
  exact (Hv 1).
Defined.

(** ** The items built from the listing page *)

Section Items.
Variable digit : Z -> bool.
Variable content : pystr -> pystr.

Lemma search_year_sound s y :
  search_year digit s = Some y ->
  exists pre post,
    s = pre ++ 47 :: y ++ 47 :: post
    /\ length y = 4%nat
    /\ List.Forall (fun c => digit c = true) y.
Proof.
  induction s as [|c s IH]; [discriminate|]. cbn [search_year].
  assert (search_year digit s = Some y ->
          exists pre post,
            c :: s = pre ++ 47 :: y ++ 47 :: post
            /\ length y = 4%nat
            /\ List.Forall (fun c => digit c = true) y) as Hrec.
  { intros H. destruct (IH H) as (pre & post & -> & Hl & Hd).
    exists (c :: pre), post. now repeat split. }
  destruct s as [|d1 [|d2 [|d3 [|d4 [|c' post]]]]]; try exact Hrec.
  destruct (_ && _) eqn:E; [|exact Hrec].
  repeat (apply andb_true_iff in E; destruct E as [E ?]).
  apply Z.eqb_eq in E. intros [= <-].
  match goal with H : (c' =? 47) = true |- _ => apply Z.eqb_eq in H end.
  subst c c'. exists [], post. cbn. repeat split; [repeat constructor; assumption].
Qed.

Lemma search_year_complete pre y post :
  length y = 4%nat -> List.Forall (fun c => digit c = true) y ->
  search_year digit (pre ++ 47 :: y ++ 47 :: post) <> None.
Proof.
  intros Hl Hd.
  destruct y as [|d1 [|d2 [|d3 [|d4 [|? ?]]]]]; try discriminate Hl.
  inversion Hd as [|? ? H1 Hd1]; subst. inversion Hd1 as [|? ? H2 Hd2]; subst.
  inversion Hd2 as [|? ? H3 Hd3]; subst. inversion Hd3 as [|? ? H4 _]; subst.
  induction pre as [|c pre IH].
  - cbn. rewrite H1, H2, H3, H4. cbn. discriminate.
  - cbn [app search_year].
    destruct (pre ++ _) as [|e1 [|e2 [|e3 [|e4 [|e5 rest]]]]] eqn:E;
      try exact IH.
    destruct (_ && _); [discriminate | exact IH].
Qed.

(** X24. The date of an item is a four-digit path segment of its URL: when
    the search finds one it is four digits standing between two slashes of
    the URL, and it finds one whenever the URL has such a segment, so the
    date is "Unknown" only for a URL that has none. *)
Theorem date_is_year_segment (s : pystr) :
  (forall y, search_year digit s = Some y ->
             exists pre post,
               s = pre ++ 47 :: y ++ 47 :: post
               /\ length y = 4%nat
               /\ List.Forall (fun c => digit c = true) y)
  /\ (search_year digit s = None ->
      forall pre y post,
        length y = 4%nat -> List.Forall (fun c => digit c = true) y ->
        s <> pre ++ 47 :: y ++ 47 :: post).
Proof.
  split; [intros y; apply search_year_sound|].
  intros Hnone pre y post Hl Hd ->.
  now apply (search_year_complete pre y post Hl Hd).
Qed.

Lemma item_of_link_item link d :
  item_of digit content link d
  <-> listed link = true /\ d = link_item digit content link.
Proof.
  unfold item_of, listed, link_item. rewrite andb_true_iff, !nonempty_true.
  set (u := absolute_url link). set (body := content u). split.
  - intros (s & -> & Ht & Hu & Hlen & Hshort & Hlong).
    split; [now split|]. f_equal.
    destruct (500 <? length body)%nat eqn:E.
    + apply Nat.ltb_lt in E. now apply Hlong.
    + apply Nat.ltb_ge in E. now apply Hshort.
  - intros [[Ht Hu] ->]. eexists. split; [reflexivity|].
    split; [exact Ht|]. split; [exact Hu|].
    destruct (500 <? length body)%nat eqn:E.
    + apply Nat.ltb_lt in E.
      split; [rewrite length_app, length_firstn;
              change (length (lit "...")) with 3%nat; lia|].
      split; [lia | reflexivity].
    + apply Nat.ltb_ge in E. split; [lia|]. split; [reflexivity | lia].
Qed.

(** X25. The items built from the listing page are exactly the items of
    its links that have a text and an address: the title is the text of
    the link, the URL is its address, put under "https://www.frbsf.org"
    exactly when the address starts with a slash, the date is the first
    four-digit path segment of the URL and "Unknown" when there is none,
    the content is what the site serves for that URL, and the summary is
    the content when that has at most 500 characters, the first 500
    followed by "..." otherwise, so never more than 503 characters. *)
Theorem fetched_items (links : list Link) (d : Dict) :
  In d (fold_left (scrape_link digit content) links [])
  <-> exists link, In link links /\ item_of digit content link d.
Proof.
  rewrite scrape_loop. cbn [app]. rewrite in_map_iff. split.
  - intros (link & <- & Hin). apply filter_In in Hin. destruct Hin as [Hin Hl].
    exists link. split; [exact Hin|]. now apply item_of_link_item.
  - intros (link & Hin & Hitem). apply item_of_link_item in Hitem.
    destruct Hitem as [Hl ->]. exists link. split; [reflexivity|].
    now apply filter_In.
Qed.

End Items.

Lemma fetched_items_witness :
  In (letter_dict (lit "First")
        (lit "https://www.frbsf.org/research-and-insights/publications/economic-letter/2024/05/first/")
        (lit "2024") (lit "Body") (lit "Body"))
     (fold_left (scrape_link Examples.ascii_digit Examples.site) Examples.listing [])
  /\ exists link,
       In link Examples.listing
       /\ item_of Examples.ascii_digit Examples.site link
            (letter_dict (lit "First")
               (lit "https://www.frbsf.org/research-and-insights/publications/economic-letter/2024/05/first/")
               (lit "2024") (lit "Body") (lit "Body")).
Proof.
  assert (In (letter_dict (lit "First")
                (lit "https://www.frbsf.org/research-and-insights/publications/economic-letter/2024/05/first/")
                (lit "2024") (lit "Body") (lit "Body"))
             (fold_left (scrape_link Examples.ascii_digit Examples.site)
                Examples.listing [])) as H
    by (left; vm_compute; reflexivity).
  split; [exact H|].
  exact (proj1 (fetched_items Examples.ascii_digit Examples.site _ _) H).
Defined.

(** ** History and statistics *)

(** X26. The history of a letter lists exactly the answers stored for its
    URL, each once (as a permutation of those rows), newest first; every
    entry carries the id, question, text and timestamp of its row, and a
    URL without answers has an empty history. *)
Theorem history_lists_the_letter (db : DB) (url : pystr) :
  let mine := List.filter (fun i => pystr_eqb (Insight.letter_url i) url)
                (insights db) in
  Permutation (get_question_history db url)
    (List.map (fun i => mkHistoryItem (Insight.id i) (Insight.question i)
                          (Insight.insight i) (Insight.created_at i)) mine)
  /\ StronglySorted (fun x y => y <= x)
       (List.map hi_created_at (get_question_history db url))
  /\ length (get_question_history db url) = length mine
  /\ ((forall i, In i (insights db) -> Insight.letter_url i <> url) ->
      get_question_history db url = []).
Proof.
  intros mine. unfold get_question_history. fold mine.
  assert (Permutation
            (order_by_desc Insight.created_at
               (index_scan Insight.question_hash mine)) mine) as Hp
    by (rewrite order_by_desc_perm; apply index_scan_perm).
  split; [now apply Permutation_map|]. split.
  { rewrite map_map. cbn [hi_created_at]. apply sorted_map.
    apply order_by_desc_sorted. }
  split; [now rewrite length_map, (Permutation_length Hp)|].
  intros Hnone. replace mine with (@nil Insight.t); [reflexivity|].
  symmetry. apply filter_nothing. intros i Hi.
  destruct (pystr_eqb _ _) eqn:E; [|reflexivity].
  apply pystr_eqb_eq in E. now apply Hnone in Hi.
Qed.

(** X27. A successful [store_letters] raises the count of letters in the
    statistics by the number of URLs of the batch that were not stored
    yet (counted once each), and leaves the count of answers as it was. *)
Theorem store_letters_counts (db : DB) (now : Z) (ds : list Dict) (db' : DB) :
  store_letters db now ds = (true, db') ->
  exists ns,
    batch_fields ds = Some ns
    /\ forall t t',
         total_letters (get_cache_stats db' t')
         = (total_letters (get_cache_stats db t) + length (fresh_urls db ns))%nat
         /\ total_insights (get_cache_stats db' t')
            = total_insights (get_cache_stats db t).
Proof.
  intros H. destruct (store_letters_urls _ _ _ _ H) as (ns & Hb & _ & _ & Hurls).
  exists ns. split; [exact Hb|]. intros t t'.
  cbn [get_cache_stats total_letters total_insights]. split.
  - rewrite <- (length_map EconomicLetter.url (economic_letters db')), Hurls.
    now rewrite length_app, length_map.
  - pose proof (store_letters_insights db now ds) as Hi. rewrite H in Hi.
    cbn [snd] in Hi. now rewrite Hi.
Qed.

Lemma store_letters_counts_witness :
  store_letters Examples.db_one_letter 5 [Examples.d_a2]
  = (true, snd (store_letters Examples.db_one_letter 5 [Examples.d_a2]))
  /\ exists ns,
       batch_fields [Examples.d_a2] = Some ns
       /\ total_letters
            (get_cache_stats
               (snd (store_letters Examples.db_one_letter 5 [Examples.d_a2])) 6)
          = (total_letters (get_cache_stats Examples.db_one_letter 6)
             + length (fresh_urls Examples.db_one_letter ns))%nat.
Proof.
  assert (store_letters Examples.db_one_letter 5 [Examples.d_a2]
          = (true, snd (store_letters Examples.db_one_letter 5 [Examples.d_a2])))
    as H by (vm_compute; reflexivity).
  split; [exact H|].
  destruct (store_letters_counts _ _ _ _ H) as (ns & Hb & Hc).
  exists ns. split; [exact Hb | exact (proj1 (Hc 6 6))].
Defined.

Example prompt_digest :
  option_map MD5.hexdigest (encode (prompt (lit "Some content") (lit "Q?")))
  = Some (lit "4e8f3b28ac7e333954c96a9a78b782e2").
Proof. vm_compute. reflexivity. Qed.
